(** * Responsive-image helpers of [D2LOrganizationHMMixin]

    A shallow embedding of [src/d2l-organization-hm-mixin.js] and the
    properties of its srcset construction.

    Modelling conventions.
    - A JavaScript object used as a dictionary is an association list in
      insertion order ([Obj.t]); [Obj.set] overwrites in place and appends a
      new key at the end.  [Obj.keys] is the order in which [Object.keys]
      and [for .. in] list the own keys: array indices first, in ascending
      numeric order, then the other keys in insertion order.
    - [Obj.get] reads own properties.  A read [o[k]] also finds the members
      that [o] inherits from [Object.prototype] when [k] is one of
      [object_prototype_names]; [Object.prototype] is taken as the language
      defines it, without properties added to it.  The read of the
      breakpoint table by image class models the inherited members.  The
      classifier reads and writes [sizesByType[link.type]]; for a link type
      in [object_prototype_names] the code reaches a shared inherited
      object, which [add_link] does not describe: the properties of the
      classifier are stated for [plain_types], link collections without
      such a type.
    - Strings are [string]; a number is a [Z] printed in decimal.
    - The values that flow through [||], [&&] and [!] are [value]s with the
      JavaScript notion of truthiness.
    - [Date.now()] is the only ambient effect and a [TypeError] the only
      exception, so methods that can reach either run in the monad [M]:
      a state monad over the clock with an abrupt completion.
    - The Siren entity and its links are external objects: the mixin only
      calls [image.href], [image.getLinksByClass], [link.type], [link.href]
      and [link.hasClass], which are the fields of [Entity] and [Link]. *)

From Stdlib Require Import ZArith List Bool Ascii String Lia Sorted Permutation.
From Stdlib Require Import Numbers.DecimalString.
Import ListNotations.

Local Open Scope string_scope.
Local Open Scope Z_scope.

(** ** JavaScript values *)

Inductive value : Type :=
| VUndef
| VBool (b : bool)
| VNum (z : Z)
| VStr (s : string).

Definition Z_to_string (z : Z) : string := NilZero.string_of_int (Z.to_int z).

Definition truthy (v : value) : bool :=
  match v with
  | VUndef => false
  | VBool b => b
  | VNum z => negb (z =? 0)
  | VStr s => negb (s =? "")%string
  end.

(** [a || b] and [a && b]. *)
Definition js_or (a b : value) : value := if truthy a then a else b.
Definition js_and (a b : value) : value := if truthy a then b else a.

(** [ToString], as applied by [+] with a string operand and by property keys. *)
Definition to_string (v : value) : string :=
  match v with
  | VUndef => "undefined"
  | VBool true => "true"
  | VBool false => "false"
  | VNum z => Z_to_string z
  | VStr s => s
  end.

Definition of_str (o : option string) : value :=
  match o with Some s => VStr s | None => VUndef end.

Definition of_num (o : option Z) : value :=
  match o with Some z => VNum z | None => VUndef end.

(** An optional boolean argument; [None] is an argument left out. *)
Definition of_flag (o : option bool) : value :=
  match o with Some b => VBool b | None => VUndef end.

(** ** Property keys *)

Definition N_to_string (n : N) : string := NilZero.string_of_uint (N.to_uint n).

Definition digit_of (a : ascii) : option N :=
  let n := N_of_ascii a in
  if ((48 <=? n) && (n <=? 57))%N%bool then Some (n - 48)%N else None.

Fixpoint parse_digits (s : string) (acc : N) : option N :=
  match s with
  | EmptyString => Some acc
  | String a r =>
      match digit_of a with
      | Some d => parse_digits r (acc * 10 + d)%N
      | None => None
      end
  end.

(** The array index a property key denotes: the key is the canonical
    decimal numeral of an integer below [2^32 - 1]. *)
Definition array_index (k : string) : option N :=
  match k with
  | EmptyString => None
  | _ =>
      match parse_digits k 0 with
      | Some n =>
          if ((N_to_string n =? k)%string && (n <? 4294967295)%N)%bool
          then Some n else None
      | None => None
      end
  end.

Definition is_index (k : string) : bool :=
  match array_index k with Some _ => true | None => false end.

(** The names of the properties of [Object.prototype], which every plain
    object inherits. *)
Definition object_prototype_names : list string :=
  [ "constructor"; "__defineGetter__"; "__defineSetter__"; "hasOwnProperty";
    "__lookupGetter__"; "__lookupSetter__"; "isPrototypeOf";
    "propertyIsEnumerable"; "toString"; "valueOf"; "__proto__";
    "toLocaleString" ].

Definition proto_name (k : string) : bool :=
  existsb (String.eqb k) object_prototype_names.

(** ** Objects as insertion-ordered dictionaries *)

Module Obj.

Definition t (V : Type) : Type := list (string * V).

Definition empty {V} : t V := [].

Fixpoint get {V} (o : t V) (k : string) : option V :=
  match o with
  | [] => None
  | (k', v) :: r => if (k' =? k)%string then Some v else get r k
  end.

Fixpoint set {V} (o : t V) (k : string) (v : V) : t V :=
  match o with
  | [] => [(k, v)]
  | (k', v') :: r =>
      if (k' =? k)%string then (k', v) :: r else (k', v') :: set r k v
  end.

(** The own keys in insertion order. *)
Definition names {V} (o : t V) : list string := map fst o.

Fixpoint insert_index (x : N * string) (l : list (N * string))
  : list (N * string) :=
  match l with
  | [] => [x]
  | y :: r => if (fst x <=? fst y)%N then x :: l else y :: insert_index x r
  end.

Definition index_names (l : list string) : list (N * string) :=
  flat_map (fun k => match array_index k with
                     | Some n => [(n, k)]
                     | None => []
                     end) l.

(** The order in which own property keys are listed: the array indices in
    ascending numeric order, then the other keys as they were inserted. *)
Definition order (l : list string) : list string :=
  (map snd (fold_right insert_index [] (index_names l))
     ++ filter (fun k => negb (is_index k)) l)%list.

(** [Object.keys(o)], also the order of [for (k in o)]. *)
Definition keys {V} (o : t V) : list string := order (names o).

End Obj.

(** ** Strings *)

(** [s.split(c)] for a one-character separator. *)
Fixpoint split (c : ascii) (s : string) : list string :=
  match s with
  | EmptyString => [EmptyString]
  | String a r =>
      if Ascii.eqb a c then EmptyString :: split c r
      else match split c r with
           | [] => [String a EmptyString]
           | h :: t => String a h :: t
           end
  end.

(** The ASCII members of the regular expression class [\s]. *)
Definition is_space (a : ascii) : bool :=
  let n := nat_of_ascii a in
  (Nat.eqb n 32 || (Nat.leb 9 n && Nat.leb n 13))%bool.

Fixpoint all_space (s : string) : bool :=
  match s with
  | EmptyString => true
  | String a r => (is_space a && all_space r)%bool
  end.

(** [s.replace(/,\s*$/, '')]: the leftmost comma followed by white space
    only up to the end of the string is removed together with that tail. *)
Fixpoint strip_trailing_comma (s : string) : string :=
  match s with
  | EmptyString => EmptyString
  | String a r =>
      if (Ascii.eqb a "," && all_space r)%bool then EmptyString
      else String a (strip_trailing_comma r)
  end.

(** ** Completions and the clock monad *)

Inductive error : Type := TypeError.

Inductive completion (A : Type) : Type :=
| Normal (a : A)
| Throw (e : error).
Arguments Normal {A} a.
Arguments Throw {A} e.

(** The clock: [readings n] is what the [n]-th call of [Date.now()] returns,
    [reads] counts the calls made so far. *)
Record World : Type := mkWorld { readings : nat -> Z; reads : nat }.

Definition M (A : Type) : Type := World -> completion A * World.

Definition ret {A} (a : A) : M A := fun w => (Normal a, w).

Definition bind {A B} (m : M A) (f : A -> M B) : M B :=
  fun w => match m w with
           | (Normal a, w') => f a w'
           | (Throw e, w') => (Throw e, w')
           end.

Definition throw {A} (e : error) : M A := fun w => (Throw e, w).

Definition Date_now : M Z :=
  fun w => (Normal (readings w (reads w)), mkWorld (readings w) (S (reads w))).

Notation "x <- m ;; k" := (bind m (fun x => k))
  (at level 61, m at next level, right associativity).

(** [array.reduce(f, init)] with an effectful callback. *)
Fixpoint reduceM {A B} (f : B -> A -> M B) (l : list A) (acc : B) : M B :=
  match l with
  | [] => ret acc
  | x :: r => acc' <- f acc x ;; reduceM f r acc'
  end.

(** [array.map(f)] with an effectful callback, left to right. *)
Fixpoint mapM {A B} (f : A -> M B) (l : list A) : M (list B) :=
  match l with
  | [] => ret []
  | x :: r => y <- f x ;; ys <- mapM f r ;; ret (y :: ys)
  end.

(** ** The Siren objects the mixin reads *)

Record Link : Type := mkLink {
  link_href : string;
  link_type : option string;          (* [None]: the link has no [type] *)
  hasClass : string -> bool
}.

Record Entity : Type := mkEntity {
  href : option string;               (* present on a linked sub-entity *)
  getLinksByClass : string -> list Link
}.

(** A link carrying the given list of classes, and a hydrated entity holding
    the given links, with the accessors of the Siren parser. *)
Definition link_of (url : string) (ty : string) (classes : list string) : Link :=
  mkLink url (Some ty) (fun c => existsb (String.eqb c) classes).

Definition entity_of (links : list Link) : Entity :=
  mkEntity None (fun c => filter (fun l => hasClass l c) links).

Definition SizeMap : Type := Obj.t string.
Definition LinksByType : Type := Obj.t SizeMap.

Record Source : Type := mkSource { src_type : string; srcset : string }.

(** ** The mixin *)

(** [this._sizeNames] *)
Definition _sizeNames : list string :=
  ["lowMin"; "lowMid"; "lowMax"; "highMin"; "highMid"; "highMax"].

(** [this._srcSetBreakpoints] *)
Definition _srcSetBreakpoints : Obj.t (Obj.t Z) :=
  [ ("tile",
      [ ("lowMin", 145); ("lowMid", 220); ("lowMax", 540);
        ("highMin", 290); ("highMid", 440); ("highMax", 1080) ]);
    ("narrow",
      [ ("lowMin", 320); ("lowMid", 375); ("lowMax", 767);
        ("highMin", 640); ("highMid", 750); ("highMax", 1534) ]) ].

(** [!image || image.href] *)
Definition unusable (image : option Entity) : bool :=
  match image with
  | None => true
  | Some e => truthy (of_str (href e))
  end.

(** [link.hasClass('min') && 'Min' || link.hasClass('mid') && 'Mid'
     || link.hasClass('max') && 'Max'] *)
Definition link_size (l : Link) : value :=
  js_or (js_or (js_and (VBool (hasClass l "min")) (VStr "Min"))
               (js_and (VBool (hasClass l "mid")) (VStr "Mid")))
        (js_and (VBool (hasClass l "max")) (VStr "Max")).

(** [link.hasClass('high-density') ? 'high' : 'low'] *)
Definition link_density (l : Link) : string :=
  if hasClass l "high-density" then "high" else "low".

(** [density + size] *)
Definition link_key (l : Link) : string :=
  link_density l ++ to_string (link_size l).

(** [link.type] used as a property key. *)
Definition type_key (l : Link) : string := to_string (of_str (link_type l)).

(** The body of the [forEach] callback of [_getImageLinks]. *)
Definition add_link (sizesByType : LinksByType) (l : Link) : LinksByType :=
  let ty := type_key l in
  let sizes := match Obj.get sizesByType ty with
               | Some s => s
               | None => Obj.empty
               end in
  Obj.set sizesByType ty (Obj.set sizes (link_key l) (link_href l)).

(** [imageClass || 'tile'] *)
Definition class_or_tile (imageClass : option string) : string :=
  to_string (js_or (of_str imageClass) (VStr "tile")).

Definition classify (links : list Link) : LinksByType :=
  fold_left add_link links Obj.empty.

Definition _getImageLinks (image : Entity) (imageClass : option string)
  : LinksByType :=
  classify (getLinksByClass image (class_or_tile imageClass)).

(** The selection [_getBestImageLinks] makes once it has the links by type;
    [None] is [undefined].  The [for .. in] loop returns at the first key,
    which is the first of [Obj.keys]: the mapping inherits no enumerable
    property. *)
Definition best_of (linksByType : LinksByType) : option SizeMap :=
  match Obj.get linksByType "image/jpeg" with
  | Some jpegLinks => Some jpegLinks
  | None =>
      match Obj.keys linksByType with
      | [] => None
      | type :: _ => Obj.get linksByType type
      end
  end.

Definition _getBestImageLinks (image : Entity) (imageClass : option string)
  : option SizeMap :=
  best_of (_getImageLinks image imageClass).

(** [breakpoints[imageClass] || breakpoints.narrow]; the property key of an
    absent [imageClass] is ["undefined"].  For a key in
    [object_prototype_names] the read finds the inherited member, which is
    an object and so truthy: there is no fall back to [narrow].  That member
    has none of the size names, so every width read from it is
    [undefined]; it is the table without entries. *)
Definition _getSrcsetBreakpoints (imageClass : option string) : Obj.t Z :=
  let key := to_string (of_str imageClass) in
  match Obj.get _srcSetBreakpoints key with
  | Some t => t
  | None =>
      if proto_name key then Obj.empty
      else
        match Obj.get _srcSetBreakpoints "narrow" with
        | Some t => t
        | None => Obj.empty
        end
  end.

(** [sizes[sizeName]]: reading a property of [undefined] throws. *)
Definition read_size (sizes : option SizeMap) (sizeName : string) : M value :=
  match sizes with
  | None => throw TypeError
  | Some o => ret (of_str (Obj.get o sizeName))
  end.

(** [sizeHref.split('?')[1] ? '&' : '?'] *)
Definition separator (sizeHref : string) : string :=
  if truthy (of_str (nth_error (split "?" sizeHref) 1)) then "&" else "?".

(** The callback of the [reduce] in [_getSrcSet]. *)
Definition add_size (sizes : option SizeMap) (breakpoints : Obj.t Z)
    (forceImageRefresh : option bool) (srcset : string) (sizeName : string)
  : M string :=
  present <- read_size sizes sizeName ;;
  if negb (truthy present) then ret srcset
  else
    sizeHref <- read_size sizes sizeName ;;
    sizeHref <-
      (if truthy (of_flag forceImageRefresh)
       then now <- Date_now ;;
            ret (to_string sizeHref ++ separator (to_string sizeHref)
                   ++ "timestamp=" ++ Z_to_string now)
       else ret (to_string sizeHref)) ;;
    ret (srcset ++ sizeHref ++ " "
           ++ to_string (of_num (Obj.get breakpoints sizeName)) ++ "w, ").

Definition _getSrcSet (sizes : option SizeMap) (imageClass : option string)
    (forceImageRefresh : option bool) : M string :=
  let breakpoints := _getSrcsetBreakpoints imageClass in
  srcset <- reduceM (add_size sizes breakpoints forceImageRefresh) _sizeNames "" ;;
  ret (strip_trailing_comma srcset).

(** The public methods; a result [None] is [undefined]. *)
Definition getPictureSrcsets (image : option Entity) (imageClass : option string)
    (forceImageRefresh : option bool) : M (option (list Source)) :=
  match image with
  | None => ret None
  | Some e =>
      if unusable image then ret None
      else
        let linksByType := _getImageLinks e imageClass in
        sources <- mapM (fun type =>
                           srcset <- _getSrcSet (Obj.get linksByType type)
                                       imageClass forceImageRefresh ;;
                           ret (mkSource type srcset))
                        (Obj.keys linksByType) ;;
        ret (Some sources)
  end.

Definition getImageSrcset (image : option Entity) (imageClass : option string)
    (forceImageRefresh : option bool) : M (option string) :=
  match image with
  | None => ret None
  | Some e =>
      if unusable image then ret None
      else
        let defaultLinks := _getBestImageLinks e imageClass in
        srcset <- _getSrcSet defaultLinks imageClass forceImageRefresh ;;
        ret (Some srcset)
  end.

(** [sizes.highMax || sizes.lowMax || sizes.highMid || sizes.lowMid
     || sizes.highMin || sizes.lowMin] *)
Definition pick_default (sizes : SizeMap) : value :=
  let at_ k := of_str (Obj.get sizes k) in
  js_or (js_or (js_or (js_or (js_or (at_ "highMax") (at_ "lowMax"))
                             (at_ "highMid")) (at_ "lowMid"))
               (at_ "highMin")) (at_ "lowMin").

Definition getDefaultImageLink (image : option Entity) (imageClass : option string)
  : value :=
  match image with
  | None => VUndef
  | Some e =>
      if unusable image then VUndef
      else
        match _getBestImageLinks e imageClass with
        | None => VUndef
        | Some sizes => pick_default sizes
        end
  end.

(** ** Vocabulary of the properties *)

(** The link carries one of the size-tier classes. *)
Definition classifiable (l : Link) : bool :=
  (hasClass l "min" || hasClass l "mid" || hasClass l "max")%bool.

(** [byType[type][key]], [None] when either property is missing. *)
Definition lookup2 (byType : LinksByType) (type key : string) : option string :=
  match Obj.get byType type with
  | Some sizes => Obj.get sizes key
  | None => None
  end.

(** The keys a link without a size-tier class is stored under. *)
Definition unsized_keys : list string := ["lowfalse"; "highfalse"].

(** Every key of every per-type size map is one of the six size names. *)
Definition only_size_names (byType : LinksByType) : Prop :=
  forall type sizes key,
    Obj.get byType type = Some sizes -> In key (Obj.keys sizes) ->
    In key _sizeNames.

(** No link has a type that names a member of [Object.prototype]. *)
Definition plain_types (links : list Link) : Prop :=
  Forall (fun l => proto_name (type_key l) = false) links.

(** The image class, as a property key, names no member of
    [Object.prototype]. *)
Definition plain_class (imageClass : option string) : Prop :=
  proto_name (to_string (of_str imageClass)) = false.

(** [breakpoints[sizeName]] as the builder prints it. *)
Definition width_text (table : Obj.t Z) (key : string) : string :=
  to_string (of_num (Obj.get table key)).

(** The text of one descriptor. *)
Definition line (url width : string) : string := url ++ " " ++ width ++ "w".

(** What the [reduce] of the builder has appended after these descriptors. *)
Fixpoint trail_lines (ls : list string) : string :=
  match ls with
  | [] => ""
  | l :: r => l ++ ", " ++ trail_lines r
  end.

(** The two density groups of [_sizeNames]. *)
Definition low_names : list string := ["lowMin"; "lowMid"; "lowMax"].
Definition high_names : list string := ["highMin"; "highMid"; "highMax"].

(** The width a breakpoint table gives a size name. *)
Definition width_in (table : Obj.t Z) (key : string) : Z :=
  match Obj.get table key with Some z => z | None => 0 end.

(** The widths of a table read in the order of the given names. *)
Definition widths_along (table : Obj.t Z) (names : list string) : list Z :=
  map (width_in table) names.

(** [sizes[key]] passes the test [!sizes[key]] of the builder. *)
Definition present (sizes : SizeMap) (key : string) : bool :=
  truthy (of_str (Obj.get sizes key)).

Definition href_at (sizes : SizeMap) (key : string) : string :=
  to_string (of_str (Obj.get sizes key)).




(** The URL with the timestamp of the [i]-th reading of the clock. *)
Definition stamp (w : World) (i : nat) (url : string) : string :=
  url ++ separator url ++ "timestamp=" ++ Z_to_string (readings w i).

(** The descriptors of the given size names with cache-busting, the first
    one stamped with the [i]-th reading and each next one with the next
    reading. *)
Fixpoint stamped_lines (sizes : SizeMap) (table : Obj.t Z) (w : World)
    (i : nat) (names : list string) : list string :=
  match names with
  | [] => []
  | key :: r =>
      line (stamp w i (href_at sizes key)) (width_text table key)
        :: stamped_lines sizes table w (S i) r
  end.

(** The world after [n] more readings of the clock. *)
Definition after_reads (w : World) (n : nat) : World :=
  mkWorld (readings w) (n + reads w).




(** The order in which [getDefaultImageLink] tries the size names. *)
Definition preference : list string :=
  ["highMax"; "lowMax"; "highMid"; "lowMid"; "highMin"; "lowMin"].

Fixpoint has_char (c : ascii) (s : string) : bool :=
  match s with
  | EmptyString => false
  | String a r => (Ascii.eqb a c || has_char c r)%bool
  end.

(** The computation reads no clock and leaves the world as it is. *)
Definition pure_in {A} (m : M A) : Prop :=
  exists r : completion A, forall w : World, m w = (r, w).

(** ** Sample inputs *)

Definition clock0 : World := mkWorld (fun n => 1700000000000 + Z.of_nat n) 0.

(** One PNG link of class [tile] without a size-tier class. *)
Definition unsized_image : Entity :=
  entity_of [ link_of "x.png" "image/png" ["tile"] ].

(** The two JPEG links of the end-to-end example. *)
Definition ex_links : list Link :=
  [ link_of "a.jpg" "image/jpeg" ["tile"; "min"];
    link_of "b.jpg" "image/jpeg" ["tile"; "min"; "high-density"] ].

(** A size map with the largest low-density and the smallest high-density
    size. *)
Definition crossing_sizes : SizeMap := [ ("lowMax", "a"); ("highMin", "b") ].

(** A URL whose query string starts with a question mark. *)
Definition double_query_sizes : SizeMap := [ ("lowMin", "a.jpg??x=1") ].



(** A hydrated entity without links. *)
Definition bare_image : Entity := entity_of [].

(** The media type [b] inserted before the media type [1]. *)
Definition numeral_type_second : LinksByType :=
  [ ("b", [ ("lowMin", "b.png") ]); ("1", [ ("lowMin", "1.png") ]) ].

(** WebP listed before JPEG. *)
Definition webp_first : LinksByType :=
  [ ("image/webp", [ ("lowMin", "a.webp") ]);
    ("image/jpeg", [ ("lowMin", "a.jpg") ]) ].

(** ** Vocabulary of the further properties *)

(** The link is filed under [byType[type][key]]. *)
Definition files_under (type key : string) (l : Link) : bool :=
  ((type_key l =? type)%string && (link_key l =? key)%string)%bool.

(** The distinct members of a list in the order of their first occurrence. *)
Fixpoint first_occurrences (l : list string) : list string :=
  match l with
  | [] => []
  | x :: r => x :: filter (fun y => negb (y =? x)%string) (first_occurrences r)
  end.

(** [k] is a key of the list [l]. *)
Definition memb (k : string) (l : list string) : bool :=
  existsb (fun k' => (k' =? k)%string) l.


(** The srcset of a size map without cache-busting. *)
Definition plain_srcset (sizes : SizeMap) (imageClass : option string) : string :=
  String.concat ", "
    (map (fun key => line (href_at sizes key)
                          (width_text (_getSrcsetBreakpoints imageClass) key))
         (filter (present sizes) _sizeNames)).

(** An entity that answers every class with the [tile] links of [e]. *)
Definition tile_links_only (e : Entity) : Entity :=
  mkEntity (href e) (fun _ => getLinksByClass e "tile").

(** Two JPEG links of the same size and density. *)
Definition overwriting_links : list Link :=
  [ link_of "old.jpg" "image/jpeg" ["tile"; "min"];
    link_of "new.jpg" "image/jpeg" ["tile"; "min"] ].

(** A PNG link before a JPEG link, both of the smallest size. *)
Definition png_then_jpeg : list Link :=
  [ link_of "a.png" "image/png" ["tile"; "min"];
    link_of "a.jpg" "image/jpeg" ["tile"; "min"] ].

(** ** Dictionary lemmas *)

Module ObjFacts.
Import Obj.

Lemma get_set_same {V} (o : t V) k v : get (set o k v) k = Some v.
Proof.
  induction o as [|[k' v'] r IH]; simpl.
  - now rewrite String.eqb_refl.
  - destruct (k' =? k)%string eqn:E; simpl; rewrite E; auto.
Qed.

Lemma get_set_other {V} (o : t V) k k' v :
  k <> k' -> get (set o k v) k' = get o k'.
Proof.
  intros N. induction o as [|[k0 v0] r IH]; simpl.
  - apply String.eqb_neq in N. now rewrite N.
  - destruct (k0 =? k)%string eqn:E; simpl.
    + apply String.eqb_eq in E; subst k0.
      apply String.eqb_neq in N. now rewrite N.
    + now rewrite IH.
Qed.

Lemma get_set {V} (o : t V) k k' v :
  get (set o k v) k' = if (k =? k')%string then Some v else get o k'.
Proof.
  destruct (String.eqb_spec k k') as [->|N].
  - apply get_set_same.
  - now apply get_set_other.
Qed.

Lemma in_names_set {V} (o : t V) k v k' :
  In k' (names (set o k v)) <-> k' = k \/ In k' (names o).
Proof.
  unfold names. induction o as [|[k0 v0] r IH]; simpl.
  - intuition.
  - destruct (String.eqb_spec k0 k) as [->|N]; simpl.
    + intuition.
    + rewrite IH. intuition.
Qed.

Lemma get_in_names {V} (o : t V) k : get o k <> None <-> In k (names o).
Proof.
  unfold names. induction o as [|[k0 v0] r IH]; simpl.
  - intuition.
  - destruct (String.eqb_spec k0 k) as [->|N].
    + split; [auto | discriminate].
    + rewrite IH. intuition.
Qed.

Lemma in_insert_index (x y : N * string) (l : list (N * string)) :
  In y (insert_index x l) <-> y = x \/ In y l.
Proof.
  induction l as [|z r IH]; simpl; [intuition|].
  destruct (fst x <=? fst z)%N; simpl; [intuition|].
  rewrite IH. intuition.
Qed.

Lemma in_sorted_indices (y : N * string) (l : list (N * string)) :
  In y (fold_right insert_index [] l) <-> In y l.
Proof.
  induction l as [|x r IH]; simpl; [tauto|].
  rewrite in_insert_index, IH. intuition.
Qed.

Lemma in_index_names (n : N) (k : string) (l : list string) :
  In (n, k) (index_names l) <-> In k l /\ array_index k = Some n.
Proof.
  unfold index_names. rewrite in_flat_map. split.
  - intros (k0 & Hin & H). destruct (array_index k0) as [n0|] eqn:E;
      simpl in H; [|contradiction].
    destruct H as [H|[]]. injection H as <- <-. auto.
  - intros [Hin E]. exists k. split; [exact Hin|]. rewrite E. now left.
Qed.

Lemma index_names_snd (x : N * string) (l : list string) :
  In x (index_names l) -> In (snd x) l /\ array_index (snd x) = Some (fst x).
Proof. destruct x as [n k]. apply in_index_names. Qed.

(** Listing the keys keeps them all and adds none. *)
Lemma in_order (k : string) (l : list string) : In k (order l) <-> In k l.
Proof.
  unfold order, is_index. rewrite in_app_iff, in_map_iff, filter_In. split.
  - intros [(x & <- & H)|[H _]]; [|exact H].
    apply in_sorted_indices, index_names_snd in H. apply H.
  - intros H. destruct (array_index k) as [n|] eqn:E.
    + left. exists (n, k). split; [reflexivity|].
      apply in_sorted_indices, in_index_names. auto.
    + right. auto.
Qed.

Lemma in_keys {V} (o : t V) (k : string) : In k (keys o) <-> In k (names o).
Proof. apply in_order. Qed.

Lemma in_keys_set {V} (o : t V) k v k' :
  In k' (keys (set o k v)) <-> k' = k \/ In k' (keys o).
Proof. now rewrite !in_keys, in_names_set. Qed.

Lemma get_in_keys {V} (o : t V) k : get o k <> None <-> In k (keys o).
Proof. now rewrite in_keys, get_in_names. Qed.

Lemma index_names_plain (l : list string) :
  (forall k, In k l -> is_index k = false) -> index_names l = [].
Proof.
  unfold is_index. induction l as [|k r IH]; intros H; simpl; [reflexivity|].
  assert (E := H k (or_introl eq_refl)).
  destruct (array_index k); [discriminate E|].
  apply IH. intros k' Hk'. apply H. now right.
Qed.

(** Without array indices the keys are listed as they were inserted. *)
Lemma order_plain (l : list string) :
  (forall k, In k l -> is_index k = false) -> order l = l.
Proof.
  intros H. unfold order. rewrite index_names_plain by exact H. simpl.
  induction l as [|k r IH]; simpl; [reflexivity|].
  rewrite (H k (or_introl eq_refl)). simpl. f_equal.
  apply IH. intros k' Hk'. apply H. now right.
Qed.

Lemma insert_index_sorted (x : N * string) (l : list (N * string)) :
  StronglySorted (fun a b => (fst a <= fst b)%N) l ->
  StronglySorted (fun a b => (fst a <= fst b)%N) (insert_index x l).
Proof.
  induction 1 as [|y r Hs IH Hy]; simpl; [repeat constructor|].
  destruct (N.leb_spec (fst x) (fst y)) as [L|L].
  - constructor; [now constructor|]. constructor; [exact L|].
    eapply Forall_impl; [|exact Hy]. simpl. intros z Hz. lia.
  - constructor; [exact IH|].
    apply Forall_forall. intros z Hz. apply in_insert_index in Hz.
    destruct Hz as [->|Hz]; [lia|].
    exact (proj1 (Forall_forall _ _) Hy z Hz).
Qed.

Lemma sorted_indices (l : list (N * string)) :
  StronglySorted (fun a b => (fst a <= fst b)%N) (fold_right insert_index [] l).
Proof.
  induction l as [|x r IH]; simpl; [constructor|].
  now apply insert_index_sorted.
Qed.

(** The key listed first is the smallest array index, when there is an
    array index, and else the key inserted first. *)
Lemma order_head (l : list string) (k : string) (rest : list string) :
  order l = k :: rest ->
  match array_index k with
  | Some n =>
      forall k' n', In k' l -> array_index k' = Some n' -> (n <= n')%N
  | None =>
      (forall k', In k' l -> is_index k' = false) /\ hd_error l = Some k
  end.
Proof.
  unfold order. intros E.
  assert (S := sorted_indices (index_names l)).
  destruct (fold_right insert_index [] (index_names l)) as [|[n0 k0] r] eqn:F.
  - simpl in E.
    assert (P : forall k', In k' l -> is_index k' = false).
    { intros k' Hk'. unfold is_index.
      destruct (array_index k') as [n'|] eqn:A; [|reflexivity].
      assert (H : In (n', k') (fold_right insert_index [] (index_names l)))
        by (apply in_sorted_indices, in_index_names; auto).
      rewrite F in H. destruct H. }
    assert (K : In k (filter (fun k => negb (is_index k)) l))
      by (rewrite E; now left).
    apply filter_In in K. destruct K as [_ K]. unfold is_index in K.
    destruct (array_index k); [discriminate K|].
    split; [exact P|].
    destruct l as [|k1 l']; [discriminate E|].
    simpl in E. rewrite (P k1 (or_introl eq_refl)) in E. simpl in E.
    now injection E as ->.
  - simpl in E. injection E as <- _.
    assert (H : In (n0, k0) (index_names l))
      by (apply in_sorted_indices; rewrite F; now left).
    apply in_index_names in H. destruct H as [_ A]. rewrite A.
    intros k' n' Hk' A'.
    assert (H : In (n', k') ((n0, k0) :: r))
      by (rewrite <- F; apply in_sorted_indices, in_index_names; auto).
    destruct H as [H|H]; [injection H as -> _; lia|].
    apply StronglySorted_inv in S. destruct S as [_ S].
    exact (proj1 (Forall_forall _ _) S (n', k') H).
Qed.

Lemma order_nil (l : list string) : order l = [] -> l = [].
Proof.
  intros E. destruct l as [|k r]; [reflexivity|].
  assert (H : In k (order (k :: r))) by (apply in_order; now left).
  rewrite E in H. destruct H.
Qed.

End ObjFacts.

(** ** The link classifier *)

Section Classifier.
Import Obj ObjFacts.

Lemma link_key_sized (l : Link) :
  classifiable l = true -> In (link_key l) _sizeNames.
Proof.
  unfold classifiable, link_key, link_density, link_size, js_or, js_and.
  destruct (hasClass l "min"), (hasClass l "mid"), (hasClass l "max"),
    (hasClass l "high-density"); simpl; intros H;
    try discriminate H; tauto.
Qed.

Lemma link_key_unsized (l : Link) :
  classifiable l = false -> In (link_key l) unsized_keys.
Proof.
  unfold classifiable, link_key, link_density, link_size, js_or, js_and.
  destruct (hasClass l "min"), (hasClass l "mid"), (hasClass l "max"),
    (hasClass l "high-density"); simpl; intros H;
    try discriminate H; tauto.
Qed.

Lemma unsized_not_size_name (k : string) :
  In k unsized_keys -> ~ In k _sizeNames.
Proof.
  unfold unsized_keys, _sizeNames; simpl.
  intros [<-|[<-|[]]] H;
    repeat (destruct H as [H|H]; [discriminate H|]); exact H.
Qed.

Lemma get_add_link (m : LinksByType) (l : Link) (t : string) :
  get (add_link m l) t =
  if (type_key l =? t)%string
  then Some (set (match get m (type_key l) with
                  | Some s => s
                  | None => empty
                  end) (link_key l) (link_href l))
  else get m t.
Proof. unfold add_link. apply get_set. Qed.

Lemma lookup2_add_link (m : LinksByType) (l : Link) (t k : string) :
  lookup2 (add_link m l) t k =
  if ((type_key l =? t) && (link_key l =? k))%string%bool
  then Some (link_href l)
  else lookup2 m t k.
Proof.
  unfold lookup2. rewrite get_add_link.
  destruct (String.eqb_spec (type_key l) t) as [->|N]; simpl; [|reflexivity].
  rewrite get_set.
  destruct (link_key l =? k)%string; [reflexivity|].
  destruct (get m t); reflexivity.
Qed.

Lemma find_app {A} (p : A -> bool) (a b : list A) :
  find p (a ++ b)%list
  = match find p a with Some x => Some x | None => find p b end.
Proof.
  induction a as [|x a IH]; simpl; [reflexivity|].
  destruct (p x); [reflexivity | exact IH].
Qed.

Lemma fold_add_link_last (links : list Link) :
  forall (m : LinksByType) (t k : string),
    lookup2 (fold_left add_link links m) t k
    = match find (files_under t k) (rev links) with
      | Some l => Some (link_href l)
      | None => lookup2 m t k
      end.
Proof.
  induction links as [|l r IH]; intros m t k; simpl; [reflexivity|].
  rewrite IH, find_app. destruct (find (files_under t k) (rev r)); [reflexivity|].
  rewrite lookup2_add_link. simpl. unfold files_under.
  destruct ((type_key l =? t)%string && (link_key l =? k)%string)%bool;
    reflexivity.
Qed.

(** Links without a size-tier class leave the six size names untouched. *)
Lemma fold_add_link_sized (links : list Link) :
  forall m m' : LinksByType,
    (forall t k, In k _sizeNames -> lookup2 m t k = lookup2 m' t k) ->
    forall t k, In k _sizeNames ->
      lookup2 (fold_left add_link links m) t k =
      lookup2 (fold_left add_link (filter classifiable links) m') t k.
Proof.
  induction links as [|l r IH]; intros m m' Hm t k Hk; simpl.
  - now apply Hm.
  - destruct (classifiable l) eqn:C; simpl.
    + apply IH; [|exact Hk]. intros t0 k0 Hk0.
      rewrite !lookup2_add_link. rewrite (Hm t0 k0 Hk0). reflexivity.
    + apply IH; [|exact Hk]. intros t0 k0 Hk0.
      rewrite lookup2_add_link.
      destruct (String.eqb_spec (link_key l) k0) as [E|N].
      * exfalso. apply (unsized_not_size_name k0); [|exact Hk0].
        rewrite <- E. now apply link_key_unsized.
      * rewrite andb_false_r. now apply Hm.
Qed.

(** A media type has an entry exactly when some link has that type. *)
Lemma fold_add_link_types (links : list Link) :
  forall (m : LinksByType) (t : string),
    get (fold_left add_link links m) t <> None <->
    get m t <> None \/ exists l, In l links /\ type_key l = t.
Proof.
  induction links as [|l r IH]; intros m t; simpl.
  - split; [auto | intros [H|[l [[] _]]]; exact H].
  - rewrite IH, get_add_link.
    destruct (String.eqb_spec (type_key l) t) as [E|N].
    + split; [intros _ | intros _; left; discriminate].
      right. exists l. auto.
    + split.
      * intros [H|[l' [Hin E]]]; [now left|]. right. exists l'. auto.
      * intros [H|[l' [[->|Hin] E]]]; [now left | contradiction |].
        right. exists l'. auto.
Qed.

End Classifier.

(** ** Properties of [_getImageLinks] *)

(** C1, as stated, fails: a [tile] link without [min], [mid] or [max] is
    stored under the key [lowfalse], which is none of the six size names,
    and its media type gets an entry although none of its links has a
    size-tier class. *)
Lemma C1_unsized_link_is_stored :
  _getImageLinks unsized_image (Some "tile")
    = [ ("image/png", [ ("lowfalse", "x.png") ]) ]
  /\ ~ only_size_names (_getImageLinks unsized_image (Some "tile"))
  /\ (forall l, In l (getLinksByClass unsized_image "tile") ->
                type_key l = "image/png" /\ classifiable l = false)
  /\ Obj.get (_getImageLinks unsized_image (Some "tile")) "image/png" <> None.
Proof.
  split; [reflexivity|]. split; [|split].
  - intros H.
    assert (K : In "lowfalse" _sizeNames).
    { apply (H "image/png" [("lowfalse", "x.png")] "lowfalse").
      - reflexivity.
      - simpl. auto. }
    simpl in K. repeat (destruct K as [K|K]; [discriminate K|]). exact K.
  - simpl. intros l [<-|[]]. split; reflexivity.
  - simpl. discriminate.
Qed.

(** C1, amended: for every input link collection in which no media type
    names a member of [Object.prototype], a link whose classes include none
    of [min], [mid], [max] contributes nothing under the six size names:
    for every media type and each of the six size names the result of
    [_getImageLinks] holds the URL that it holds for the collection without
    those links, and every URL held under a size name is the [href] of a
    link that has a size-tier class.  Every key of every per-type size map
    is one of the six size names or the key under which a link without a
    size-tier class was filed.  A media type has an entry exactly when at
    least one link of the collection has that type, whether or not the
    link has a size-tier class. *)
Theorem C1_getImageLinks_keys (image : Entity) (imageClass : option string) :
  let links := getLinksByClass image (class_or_tile imageClass) in
  let byType := _getImageLinks image imageClass in
  plain_types links ->
  (forall type key, In key _sizeNames ->
      lookup2 byType type key
      = lookup2 (classify (filter classifiable links)) type key)
  /\ (forall type key url,
        In key _sizeNames -> lookup2 byType type key = Some url ->
        exists l, In l links /\ classifiable l = true
                  /\ type_key l = type /\ link_key l = key
                  /\ link_href l = url)
  /\ (forall type sizes key,
        Obj.get byType type = Some sizes -> In key (Obj.keys sizes) ->
        In key _sizeNames
        \/ exists l, In l links /\ classifiable l = false
                     /\ type_key l = type /\ link_key l = key)
  /\ (forall type,
        In type (Obj.keys byType) <->
        exists l, In l links /\ type_key l = type).
Proof.
  intros links byType _.
  assert (L : forall type key,
             lookup2 byType type key <> None ->
             exists l, In l links /\ type_key l = type /\ link_key l = key
                       /\ lookup2 byType type key = Some (link_href l)).
  { intros type key H. unfold byType, _getImageLinks, classify in *.
    fold links in H |- *. rewrite fold_add_link_last in H |- *.
    destruct (find (files_under type key) (rev links)) as [l|] eqn:F;
      [|now elim H].
    apply find_some in F. destruct F as [Hin Hf].
    unfold files_under in Hf. apply andb_true_iff in Hf.
    destruct Hf as [Ht Hk].
    apply String.eqb_eq in Ht. apply String.eqb_eq in Hk.
    exists l. repeat split; auto. now apply in_rev. }
  split; [|split; [|split]].
  - intros type key Hk. unfold byType, _getImageLinks, classify. fold links.
    now apply fold_add_link_sized.
  - intros type key url Hk E.
    destruct (L type key) as (l & Hin & Ht & Hl & E'); [rewrite E; discriminate|].
    rewrite E in E'. injection E' as ->.
    exists l. repeat split; auto.
    destruct (classifiable l) eqn:C; [reflexivity|].
    exfalso. apply (unsized_not_size_name key); [|exact Hk].
    rewrite <- Hl. now apply link_key_unsized.
  - intros type sizes key G Hin.
    apply ObjFacts.in_keys in Hin.
    destruct (L type key) as (l & Hl & Ht & Hk & _).
    { unfold lookup2. rewrite G. now apply ObjFacts.get_in_names. }
    destruct (classifiable l) eqn:C.
    + left. rewrite <- Hk. now apply link_key_sized.
    + right. exists l. auto.
  - intros type. rewrite <- ObjFacts.get_in_keys.
    unfold byType, _getImageLinks, classify. fold links.
    rewrite fold_add_link_types. split.
    + intros [H|H]; [now elim H | exact H].
    + intros H. now right.
Qed.

Lemma C1_getImageLinks_keys_witness :
  In "image/png" (Obj.keys (_getImageLinks unsized_image (Some "tile")))
  /\ lookup2 (_getImageLinks unsized_image (Some "tile")) "image/png" "lowMin"
     = None.
Proof.
  destruct (C1_getImageLinks_keys unsized_image (Some "tile"))
    as (S & _ & _ & T).
  - repeat constructor.
  - split.
    + apply T. exists (link_of "x.png" "image/png" ["tile"]).
      split; [simpl; left; reflexivity | reflexivity].
    + rewrite (S "image/png" "lowMin"); [reflexivity | simpl; auto].
Defined.

(** ** The srcset builder *)

Section Builder.
Import Obj.

Lemma append_assoc (a b c : string) : (a ++ b) ++ c = a ++ (b ++ c).
Proof. induction a as [|x a IH]; simpl; [reflexivity | now rewrite IH]. Qed.

Lemma append_nil_r (a : string) : a ++ "" = a.
Proof. induction a as [|x a IH]; simpl; [reflexivity | now rewrite IH]. Qed.

Lemma all_space_w (s t : string) : all_space (s ++ String "w" t) = false.
Proof.
  induction s as [|x s IH]; simpl; [reflexivity|].
  rewrite IH. apply andb_false_r.
Qed.

(** The regular expression removes the final [", "] and nothing else. *)
Lemma strip_after_w (s : string) :
  strip_trailing_comma (s ++ "w, ") = s ++ "w".
Proof.
  induction s as [|x s IH]; [reflexivity|].
  cbn [append strip_trailing_comma].
  rewrite all_space_w, andb_false_r, IH. reflexivity.
Qed.




Lemma breakpoints_cases (imageClass : option string) :
  _getSrcsetBreakpoints imageClass = _getSrcsetBreakpoints (Some "tile")
  \/ _getSrcsetBreakpoints imageClass = _getSrcsetBreakpoints (Some "narrow")
  \/ (~ plain_class imageClass /\ _getSrcsetBreakpoints imageClass = empty).
Proof.
  unfold plain_class, _getSrcsetBreakpoints, _srcSetBreakpoints. cbv zeta.
  generalize (to_string (of_str imageClass)). intros k.
  cbn [get]. destruct ("tile" =? k)%string; [left; reflexivity|].
  destruct ("narrow" =? k)%string; [right; left; reflexivity|].
  destruct (proto_name k); [|right; left; reflexivity].
  right. right. split; [discriminate | reflexivity].
Qed.

Lemma breakpoints_plain (imageClass : option string) :
  plain_class imageClass ->
  _getSrcsetBreakpoints imageClass = _getSrcsetBreakpoints (Some "tile")
  \/ _getSrcsetBreakpoints imageClass = _getSrcsetBreakpoints (Some "narrow").
Proof.
  intros P. destruct (breakpoints_cases imageClass) as [H|[H|[N _]]]; auto.
  now elim N.
Qed.

(** An image class that names a member of [Object.prototype] selects no
    table. *)
Lemma breakpoints_member (imageClass : option string) :
  ~ plain_class imageClass -> _getSrcsetBreakpoints imageClass = empty.
Proof.
  unfold plain_class, _getSrcsetBreakpoints, _srcSetBreakpoints. cbv zeta.
  generalize (to_string (of_str imageClass)). intros k N.
  destruct (proto_name k) eqn:E; [|now elim N].
  cbn [get].
  destruct (String.eqb_spec "tile" k) as [<-|_]; [discriminate E|].
  destruct (String.eqb_spec "narrow" k) as [<-|_]; [discriminate E|].
  reflexivity.
Qed.

Lemma breakpoints_total (imageClass : option string) (key : string) :
  plain_class imageClass ->
  In key _sizeNames ->
  get (_getSrcsetBreakpoints imageClass) key
  = Some (width_in (_getSrcsetBreakpoints imageClass) key).
Proof.
  intros P H. unfold width_in.
  destruct (breakpoints_plain imageClass P) as [-> | ->];
    simpl in H; repeat (destruct H as [<-|H]; [reflexivity|]); destruct H.
Qed.








Lemma line_comma (url width : string) :
  line url width ++ ", " = url ++ " " ++ width ++ "w, ".
Proof.
  unfold line. rewrite append_assoc. f_equal.
  cbn [append]. f_equal. now rewrite append_assoc.
Qed.

Lemma trail_lines_concat (l : string) (ls : list string) :
  trail_lines (l :: ls) = String.concat ", " (l :: ls) ++ ", ".
Proof.
  revert l. induction ls as [|e r IH]; intros l.
  - reflexivity.
  - change (trail_lines (l :: e :: r)) with (l ++ ", " ++ trail_lines (e :: r)).
    rewrite IH.
    change (String.concat ", " (l :: e :: r))
      with (l ++ ", " ++ String.concat ", " (e :: r)).
    now rewrite !append_assoc.
Qed.

Lemma concat_lines_end_in_w (l : string) (ls : list string) :
  Forall (fun x => exists b, x = b ++ "w") (l :: ls) ->
  exists s, String.concat ", " (l :: ls) = s ++ "w".
Proof.
  revert l. induction ls as [|e r IH]; intros l H.
  - inversion H as [|? ? [b ->] _]; subst. exists b. reflexivity.
  - inversion H as [|? ? _ Hr]; subst. destruct (IH e Hr) as [s Hs].
    exists (l ++ ", " ++ s).
    change (String.concat ", " (l :: e :: r))
      with (l ++ ", " ++ String.concat ", " (e :: r)).
    rewrite Hs. now rewrite !append_assoc.
Qed.

(** Stripping what the [reduce] has built leaves the lines joined by
    [", "]. *)
Lemma strip_trail_lines (ls : list string) :
  Forall (fun x => exists b, x = b ++ "w") ls ->
  strip_trailing_comma (trail_lines ls) = String.concat ", " ls.
Proof.
  destruct ls as [|l r]; [reflexivity|]. intros H.
  rewrite trail_lines_concat. destruct (concat_lines_end_in_w l r H) as [s ->].
  rewrite append_assoc. apply strip_after_w.
Qed.

Lemma line_ends_in_w (url width : string) : exists b, line url width = b ++ "w".
Proof.
  exists (url ++ " " ++ width). unfold line. now rewrite !append_assoc.
Qed.

Lemma add_size_plain (sizes : SizeMap) (table : Obj.t Z) (flag : option bool)
    (acc key : string) (w : World) :
  truthy (of_flag flag) = false ->
  add_size (Some sizes) table flag acc key w
  = (Normal (if present sizes key
             then acc ++ line (href_at sizes key) (width_text table key) ++ ", "
             else acc), w).
Proof.
  intros F. unfold add_size, read_size, bind, ret, present.
  destruct (truthy (of_str (get sizes key))); cbn [negb]; [|reflexivity].
  rewrite F, line_comma. reflexivity.
Qed.

Lemma add_size_stamped (sizes : SizeMap) (table : Obj.t Z) (flag : option bool)
    (acc key : string) (w : World) :
  truthy (of_flag flag) = true ->
  add_size (Some sizes) table flag acc key w
  = if present sizes key
    then (Normal (acc ++ line (stamp w (reads w) (href_at sizes key))
                              (width_text table key) ++ ", "),
          after_reads w 1)
    else (Normal acc, w).
Proof.
  intros F. unfold add_size, read_size, bind, ret, present.
  destruct (truthy (of_str (get sizes key))); cbn [negb]; [|reflexivity].
  rewrite F, line_comma. reflexivity.
Qed.

Lemma reduce_plain (sizes : SizeMap) (table : Obj.t Z) (flag : option bool)
    (names : list string) :
  truthy (of_flag flag) = false ->
  forall (acc : string) (w : World),
    reduceM (add_size (Some sizes) table flag) names acc w
    = (Normal (acc ++ trail_lines
                        (map (fun key => line (href_at sizes key)
                                              (width_text table key))
                             (filter (present sizes) names))), w).
Proof.
  intros F. induction names as [|key r IH]; intros acc w.
  - simpl. now rewrite append_nil_r.
  - cbn [reduceM filter]. unfold bind.
    rewrite add_size_plain by exact F. rewrite IH.
    destruct (present sizes key); [|reflexivity].
    cbn [map trail_lines]. now rewrite !append_assoc.
Qed.

Lemma stamped_lines_readings (sizes : SizeMap) (table : Obj.t Z)
    (w : World) (n : nat) (names : list string) :
  forall i, stamped_lines sizes table (after_reads w n) i names
            = stamped_lines sizes table w i names.
Proof.
  induction names as [|key r IH]; intros i; simpl; [reflexivity|].
  now rewrite IH.
Qed.

Lemma after_reads_more (w : World) (n : nat) :
  after_reads (after_reads w 1) n = after_reads w (S n).
Proof. unfold after_reads. simpl. now rewrite Nat.add_succ_r. Qed.

Lemma after_reads_none (w : World) : after_reads w 0 = w.
Proof. destruct w. reflexivity. Qed.

Lemma reduce_stamped (sizes : SizeMap) (table : Obj.t Z) (flag : option bool)
    (names : list string) :
  truthy (of_flag flag) = true ->
  forall (acc : string) (w : World),
    reduceM (add_size (Some sizes) table flag) names acc w
    = (Normal (acc ++ trail_lines
                        (stamped_lines sizes table w (reads w)
                           (filter (present sizes) names))),
       after_reads w (List.length (filter (present sizes) names))).
Proof.
  intros F. induction names as [|key r IH]; intros acc w.
  - simpl. now rewrite append_nil_r, after_reads_none.
  - cbn [reduceM filter]. unfold bind.
    rewrite add_size_stamped by exact F.
    destruct (present sizes key).
    + rewrite IH. rewrite after_reads_more, stamped_lines_readings.
      cbn [stamped_lines trail_lines List.length]. now rewrite !append_assoc.
    + now rewrite IH.
Qed.

Lemma stamped_lines_end_in_w (sizes : SizeMap) (table : Obj.t Z) (w : World)
    (names : list string) :
  forall i, Forall (fun x => exists b, x = b ++ "w")
                   (stamped_lines sizes table w i names).
Proof.
  induction names as [|key r IH]; intros i; simpl; constructor.
  - apply line_ends_in_w.
  - apply IH.
Qed.

Lemma getSrcSet_plain (sizes : SizeMap) (imageClass : option string)
    (flag : option bool) (w : World) :
  truthy (of_flag flag) = false ->
  _getSrcSet (Some sizes) imageClass flag w
  = (Normal (plain_srcset sizes imageClass), w).
Proof.
  intros F. unfold _getSrcSet, bind. cbv zeta.
  rewrite (reduce_plain sizes _ flag _sizeNames F).
  cbn [append ret]. rewrite strip_trail_lines; [reflexivity|].
  apply Forall_forall. intros x Hx. apply in_map_iff in Hx.
  destruct Hx as (key & <- & _). apply line_ends_in_w.
Qed.

Lemma getSrcSet_stamped (sizes : SizeMap) (imageClass : option string)
    (flag : option bool) (w : World) :
  truthy (of_flag flag) = true ->
  _getSrcSet (Some sizes) imageClass flag w
  = (Normal (String.concat ", "
               (stamped_lines sizes (_getSrcsetBreakpoints imageClass)
                  w (reads w) (filter (present sizes) _sizeNames))),
     after_reads w (List.length (filter (present sizes) _sizeNames))).
Proof.
  intros F. unfold _getSrcSet, bind. cbv zeta.
  rewrite (reduce_stamped sizes _ flag _sizeNames F).
  cbn [append ret]. rewrite strip_trail_lines; [reflexivity|].
  apply stamped_lines_end_in_w.
Qed.


End Builder.

(** ** Properties of the breakpoint tables and of [_getSrcSet] *)

(** C3, as stated, fails: read in the order of [_sizeNames], both tables go
    down from [lowMax] to [highMin] (540 to 290, and 767 to 640). *)
Lemma C3_canonical_order_not_increasing :
  widths_along (_getSrcsetBreakpoints (Some "tile")) _sizeNames
    = [145; 220; 540; 290; 440; 1080]
  /\ widths_along (_getSrcsetBreakpoints (Some "narrow")) _sizeNames
    = [320; 375; 767; 640; 750; 1534]
  /\ ~ Sorted Z.lt (widths_along (_getSrcsetBreakpoints (Some "tile")) _sizeNames)
  /\ ~ Sorted Z.lt
        (widths_along (_getSrcsetBreakpoints (Some "narrow")) _sizeNames).
Proof.
  split; [reflexivity|]. split; [reflexivity|].
  split; intros H; cbv [widths_along map _sizeNames] in H;
    apply Sorted_inv in H; destruct H as [H _];
    apply Sorted_inv in H; destruct H as [H _];
    apply Sorted_inv in H; destruct H as [_ H];
    apply HdRel_inv in H; vm_compute in H; discriminate H.
Qed.

(** C3, amended: there are two breakpoint tables, [tile] and [narrow]; each
    gives a width to exactly the six size names, every width is a positive
    integer, and the widths are strictly increasing within each density
    group, from [lowMin] over [lowMid] to [lowMax] and from [highMin] over
    [highMid] to [highMax]. *)
Theorem C3_breakpoint_tables :
  Obj.keys _srcSetBreakpoints = ["tile"; "narrow"]
  /\ Forall (fun entry : string * Obj.t Z =>
              let table := snd entry in
              Obj.keys table = _sizeNames
              /\ Forall (fun kv : string * Z => 0 < snd kv) table
              /\ StronglySorted Z.lt (widths_along table low_names)
              /\ StronglySorted Z.lt (widths_along table high_names))
           _srcSetBreakpoints.
Proof.
  split; [reflexivity|].
  repeat (apply Forall_cons || apply Forall_nil); cbv zeta;
    (split; [reflexivity|]); (split; [repeat constructor|]);
    split; cbv [widths_along map low_names high_names];
    repeat (constructor; [|repeat constructor; reflexivity]); constructor.
Qed.




(** C5: the end-to-end example. *)
Theorem C5_example (w : World) :
  fst (getImageSrcset (Some (entity_of ex_links)) (Some "tile") (Some false) w)
    = Normal (Some "a.jpg 145w, b.jpg 290w")
  /\ fst (getImageSrcset (Some (entity_of ex_links)) (Some "tile") None w)
    = Normal (Some "a.jpg 145w, b.jpg 290w").
Proof. split; reflexivity. Qed.

(** ** The cache-busting separator *)

Section Separator.

Lemma split_cons (c : ascii) (s : string) :
  exists h t, split c s = h :: t.
Proof.
  induction s as [|a s [h [t IH]]]; simpl; [eauto|].
  destruct (Ascii.eqb a c); [eauto|]. rewrite IH. eauto.
Qed.

Lemma split_without (c : ascii) (s : string) :
  has_char c s = false -> split c s = [s].
Proof.
  induction s as [|a s IH]; simpl; [reflexivity|].
  destruct (Ascii.eqb a c); simpl; [discriminate|].
  intros H. now rewrite IH.
Qed.

Lemma split_at_first (c : ascii) (base rest : string) :
  has_char c base = false ->
  split c (base ++ String c rest) = base :: split c rest.
Proof.
  induction base as [|a s IH]; simpl.
  - now rewrite Ascii.eqb_refl.
  - destruct (Ascii.eqb a c); simpl; [discriminate|].
    intros H. now rewrite IH.
Qed.

(** A URL without a question mark gets [?]. *)
Lemma separator_without_query (url : string) :
  has_char "?" url = false -> separator url = "?".
Proof.
  intros H. unfold separator. now rewrite split_without.
Qed.

(** A URL whose first question mark is followed by another character than
    a question mark gets [&]. *)
Lemma separator_with_query (base : string) (a : ascii) (rest : string) :
  has_char "?" base = false -> a <> "?"%char ->
  separator (base ++ String "?" (String a rest)) = "&".
Proof.
  intros H N. unfold separator. rewrite split_at_first by exact H.
  cbn [split]. apply Ascii.eqb_neq in N. rewrite N.
  destruct (split_cons "?" rest) as [h [t ->]]. reflexivity.
Qed.

(** A URL whose first question mark ends the URL or is followed by another
    question mark gets [?]. *)
Lemma separator_empty_first_field (base rest : string) :
  has_char "?" base = false ->
  separator (base ++ "?") = "?"
  /\ separator (base ++ String "?" (String "?" rest)) = "?".
Proof.
  intros H. unfold separator. rewrite !split_at_first by exact H.
  split; reflexivity.
Qed.

End Separator.

(** C8: with cache-busting on, the URL [a.jpg??x=1], whose query string is
    [?x=1], gets the timestamp joined with [?] where [&] is due. *)
Lemma C8_second_question_mark :
  separator "a.jpg??x=1" = "?"
  /\ fst (_getSrcSet (Some double_query_sizes) (Some "tile") (Some true) clock0)
     = Normal "a.jpg??x=1?timestamp=1700000000000 145w".
Proof. split; reflexivity. Qed.

(** ** The best-type selector and the default link *)

Section Selector.
Import Obj.

Lemma get_app {V} (a b : t V) (k : string) :
  get (a ++ b)%list k = match get a k with Some v => Some v | None => get b k end.
Proof.
  induction a as [|[k0 v0] r IH]; simpl; [reflexivity|].
  destruct (k0 =? k)%string; [reflexivity | exact IH].
Qed.

Lemma best_of_jpeg (byType : LinksByType) (sizes : SizeMap) :
  get byType "image/jpeg" = Some sizes -> best_of byType = Some sizes.
Proof. intros H. unfold best_of. now rewrite H. Qed.

(** Without [image/jpeg] the selector takes the key listed first. *)
Lemma best_of_listed (byType : LinksByType) :
  get byType "image/jpeg" = None ->
  best_of byType = match keys byType with
                   | [] => None
                   | type :: _ => get byType type
                   end.
Proof. intros H. unfold best_of. now rewrite H. Qed.

Lemma get_head {V} (o : t V) (k : string) :
  hd_error (names o) = Some k -> get o k = option_map snd (hd_error o).
Proof.
  destruct o as [|[k0 v] r]; simpl; [discriminate|].
  intros [= ->]. now rewrite String.eqb_refl.
Qed.

Lemma best_of_first (byType : LinksByType) :
  get byType "image/jpeg" = None ->
  (forall type, In type (names byType) -> is_index type = false) ->
  best_of byType = option_map snd (hd_error byType).
Proof.
  intros J P. rewrite best_of_listed by exact J.
  unfold keys. rewrite (ObjFacts.order_plain _ P).
  destruct byType as [|[k v] r]; [reflexivity|].
  simpl. now rewrite String.eqb_refl.
Qed.

Lemma best_of_smallest_index (byType : LinksByType) :
  get byType "image/jpeg" = None ->
  (exists type, In type (names byType) /\ is_index type = true) ->
  exists type n sizes,
    array_index type = Some n
    /\ get byType type = Some sizes
    /\ best_of byType = Some sizes
    /\ forall type' n',
         In type' (names byType) -> array_index type' = Some n' ->
         (n <= n')%N.
Proof.
  intros J (t0 & Hin & I). rewrite best_of_listed by exact J.
  unfold keys. destruct (order (names byType)) as [|k rest] eqn:E.
  - apply ObjFacts.order_nil in E. rewrite E in Hin. destruct Hin.
  - assert (H := ObjFacts.order_head _ _ _ E).
    assert (K : In k (names byType)).
    { apply ObjFacts.in_order. rewrite E. now left. }
    destruct (array_index k) as [n|] eqn:A.
    + apply ObjFacts.get_in_names in K.
      destruct (get byType k) as [sizes|] eqn:G; [|now elim K].
      exists k, n, sizes. auto.
    + destruct H as [P _]. rewrite (P t0 Hin) in I. discriminate I.
Qed.


Lemma find_none {A} (p : A -> bool) (l : list A) :
  (forall y, In y l -> p y = false) -> find p l = None.
Proof.
  induction l as [|y r IH]; intros H; simpl; [reflexivity|].
  rewrite (H y (or_introl eq_refl)). apply IH.
  intros z Hz. apply H. now right.
Qed.

(** The chain of [||] returns the first truthy operand, or the last one. *)
Lemma pick_default_find (sizes : SizeMap) :
  pick_default sizes =
  match find (present sizes) preference with
  | Some key => of_str (get sizes key)
  | None => of_str (get sizes "lowMin")
  end.
Proof.
  unfold pick_default, preference, present, js_or. cbn [find].
  repeat match goal with
         | |- context [truthy (of_str (get sizes ?k))] =>
             let E := fresh "E" in
             destruct (truthy (of_str (get sizes k))) eqn:E;
             repeat (cbn iota; try rewrite E);
             try reflexivity
         end.
Qed.


Lemma absent_not_present (sizes : SizeMap) (key : string) :
  get sizes key = None -> present sizes key = false.
Proof. intros G. unfold present. now rewrite G. Qed.

End Selector.

(** C6, as stated, fails: of the media types [b] and [1], inserted in this
    order, the selector returns the size map of [1]. *)
Lemma C6_numeral_type_comes_first :
  hd_error numeral_type_second = Some ("b", [ ("lowMin", "b.png") ])
  /\ Obj.get numeral_type_second "image/jpeg" = None
  /\ best_of numeral_type_second = Some [ ("lowMin", "1.png") ]
  /\ _getImageLinks
       (entity_of [ link_of "b.png" "b" ["tile"; "min"];
                    link_of "1.png" "1" ["tile"; "min"] ]) (Some "tile")
     = numeral_type_second
  /\ _getBestImageLinks
       (entity_of [ link_of "b.png" "b" ["tile"; "min"];
                    link_of "1.png" "1" ["tile"; "min"] ]) (Some "tile")
     = Some [ ("lowMin", "1.png") ].
Proof. repeat split. Qed.

(** C6, amended: for every mapping from media types to size maps the
    selector returns the [image/jpeg] size map whenever there is one,
    wherever it stands in the insertion order; without one it returns the
    size map of the media type that the object lists first: the first
    media type in insertion order when no media type is an array index (a
    canonical decimal numeral below [2^32 - 1]), and else the media type
    that is the smallest array index; it returns nothing for an empty
    mapping.  [_getBestImageLinks] applies this selection to the result of
    [_getImageLinks]. *)
Theorem C6_best_type (byType : LinksByType) :
  (forall sizes, Obj.get byType "image/jpeg" = Some sizes ->
                 best_of byType = Some sizes)
  /\ (forall (before after : LinksByType) (sizes : SizeMap),
        Obj.get before "image/jpeg" = None ->
        best_of (before ++ ("image/jpeg", sizes) :: after)%list = Some sizes)
  /\ (Obj.get byType "image/jpeg" = None ->
      (forall type, In type (Obj.names byType) -> is_index type = false) ->
      best_of byType = option_map snd (hd_error byType))
  /\ (Obj.get byType "image/jpeg" = None ->
      (exists type, In type (Obj.names byType) /\ is_index type = true) ->
      exists type n sizes,
        array_index type = Some n
        /\ Obj.get byType type = Some sizes
        /\ best_of byType = Some sizes
        /\ forall type' n',
             In type' (Obj.names byType) -> array_index type' = Some n' ->
             (n <= n')%N)
  /\ best_of Obj.empty = None
  /\ (forall image imageClass,
        _getBestImageLinks image imageClass
        = best_of (_getImageLinks image imageClass)).
Proof.
  split; [apply best_of_jpeg|].
  split; [|split; [apply best_of_first|split; [apply best_of_smallest_index|]]].
  - intros before after sizes H. apply best_of_jpeg.
    rewrite get_app, H. simpl. reflexivity.
  - split; reflexivity.
Qed.

Lemma C6_best_type_witness :
  best_of webp_first = Some [ ("lowMin", "a.jpg") ]
  /\ best_of [ ("image/webp", [ ("lowMin", "a.webp") ]) ]
     = Some [ ("lowMin", "a.webp") ]
  /\ exists type n sizes,
       array_index type = Some n
       /\ Obj.get numeral_type_second type = Some sizes
       /\ best_of numeral_type_second = Some sizes
       /\ forall type' n',
            In type' (Obj.names numeral_type_second) ->
            array_index type' = Some n' -> (n <= n')%N.
Proof.
  split; [|split].
  - apply (proj1 (C6_best_type webp_first)). reflexivity.
  - apply (proj1 (proj2 (proj2
             (C6_best_type [ ("image/webp", [ ("lowMin", "a.webp") ]) ])))).
    + reflexivity.
    + simpl. intros type [<-|[]]. reflexivity.
  - apply (proj1 (proj2 (proj2 (proj2 (C6_best_type numeral_type_second))))).
    + reflexivity.
    + exists "1". split; [simpl; auto | reflexivity].
Defined.




(** ** The entry points on degenerate input *)

Section EntryPoints.

(** An absent image and a linked (unhydrated) image give [undefined]. *)
Lemma unusable_image (image : option Entity) (imageClass : option string)
    (forceImageRefresh : option bool) (w : World) :
  unusable image = true ->
  getPictureSrcsets image imageClass forceImageRefresh w = (Normal None, w)
  /\ getImageSrcset image imageClass forceImageRefresh w = (Normal None, w)
  /\ getDefaultImageLink image imageClass = VUndef.
Proof.
  intros U. unfold getPictureSrcsets, getImageSrcset, getDefaultImageLink.
  destruct image as [e|]; [rewrite U|]; repeat split.
Qed.

(** [_getSrcSet] on [undefined] throws at the first size name, before any
    clock is read. *)
Lemma getSrcSet_undefined (imageClass : option string)
    (forceImageRefresh : option bool) (w : World) :
  _getSrcSet None imageClass forceImageRefresh w = (Throw TypeError, w).
Proof. reflexivity. Qed.

(** Without links of the image class [getImageSrcset] throws. *)
Lemma getImageSrcset_no_links (e : Entity) (imageClass : option string)
    (forceImageRefresh : option bool) (w : World) :
  unusable (Some e) = false ->
  getLinksByClass e (class_or_tile imageClass) = [] ->
  getImageSrcset (Some e) imageClass forceImageRefresh w = (Throw TypeError, w).
Proof.
  intros U L. unfold getImageSrcset. rewrite U.
  unfold _getBestImageLinks, _getImageLinks. rewrite L. reflexivity.
Qed.

(** The size map [{}] gives the empty string. *)
Lemma getSrcSet_empty (imageClass : option string)
    (forceImageRefresh : option bool) (w : World) :
  _getSrcSet (Some Obj.empty) imageClass forceImageRefresh w = (Normal "", w).
Proof. reflexivity. Qed.

End EntryPoints.

(** C2: on a hydrated image without links of the requested class
    [getImageSrcset] throws a [TypeError], where [getDefaultImageLink]
    returns [undefined] and [getPictureSrcsets] an empty array. *)
Lemma C2_getImageSrcset_throws_without_links (w : World) :
  getImageSrcset (Some bare_image) (Some "tile") None w = (Throw TypeError, w)
  /\ getDefaultImageLink (Some bare_image) (Some "tile") = VUndef
  /\ getPictureSrcsets (Some bare_image) (Some "tile") None w
     = (Normal (Some []), w).
Proof. repeat split. Qed.

(** C9: for every hydrated image (no [href]) whose link set for the
    requested image class is empty, [getPictureSrcsets] returns an empty
    array, not [undefined], and does not throw. *)
Theorem C9_no_links_empty_array (image : Entity) (imageClass : option string)
    (forceImageRefresh : option bool) (w : World) :
  unusable (Some image) = false ->
  getLinksByClass image (class_or_tile imageClass) = [] ->
  getPictureSrcsets (Some image) imageClass forceImageRefresh w
  = (Normal (Some []), w).
Proof.
  intros U L. unfold getPictureSrcsets. rewrite U.
  unfold _getImageLinks. rewrite L. reflexivity.
Qed.

Lemma C9_no_links_empty_array_witness :
  getPictureSrcsets (Some bare_image) (Some "tile") (Some true) clock0
  = (Normal (Some []), clock0).
Proof.
  apply (C9_no_links_empty_array bare_image (Some "tile") (Some true) clock0);
    reflexivity.
Defined.

(** ** Determinism without cache-busting *)

Section Purity.

Lemma pure_ret {A} (a : A) : pure_in (ret a).
Proof. exists (Normal a). reflexivity. Qed.

Lemma pure_throw {A} (e : error) : pure_in (@throw A e).
Proof. exists (Throw e). reflexivity. Qed.

Lemma pure_bind {A B} (m : M A) (f : A -> M B) :
  pure_in m -> (forall a, pure_in (f a)) -> pure_in (bind m f).
Proof.
  intros [r Hm] Hf. destruct r as [a|e].
  - destruct (Hf a) as [r' Hfa]. exists r'. intros w.
    unfold bind. now rewrite Hm, Hfa.
  - exists (Throw e). intros w. unfold bind. now rewrite Hm.
Qed.

Lemma pure_reduceM {A B} (f : B -> A -> M B) (l : list A) :
  (forall acc x, pure_in (f acc x)) -> forall acc, pure_in (reduceM f l acc).
Proof.
  intros Hf. induction l as [|x r IH]; intros acc; simpl.
  - apply pure_ret.
  - apply pure_bind; [apply Hf | exact IH].
Qed.

Lemma pure_mapM {A B} (f : A -> M B) (l : list A) :
  (forall x, pure_in (f x)) -> pure_in (mapM f l).
Proof.
  intros Hf. induction l as [|x r IH]; simpl.
  - apply pure_ret.
  - apply pure_bind; [apply Hf | intros y].
    apply pure_bind; [exact IH | intros ys; apply pure_ret].
Qed.

Lemma pure_read_size (sizes : option SizeMap) (sizeName : string) :
  pure_in (read_size sizes sizeName).
Proof. destruct sizes; [apply pure_ret | apply pure_throw]. Qed.

Lemma pure_add_size (sizes : option SizeMap) (table : Obj.t Z)
    (flag : option bool) (acc sizeName : string) :
  truthy (of_flag flag) = false ->
  pure_in (add_size sizes table flag acc sizeName).
Proof.
  intros F. unfold add_size. rewrite F.
  apply pure_bind; [apply pure_read_size | intros v].
  destruct (negb (truthy v)); [apply pure_ret|].
  apply pure_bind; [apply pure_read_size | intros u].
  apply pure_bind; [apply pure_ret | intros u'; apply pure_ret].
Qed.

Lemma pure_getSrcSet (sizes : option SizeMap) (imageClass : option string)
    (flag : option bool) :
  truthy (of_flag flag) = false ->
  pure_in (_getSrcSet sizes imageClass flag).
Proof.
  intros F. unfold _getSrcSet.
  apply pure_bind; [|intros s; apply pure_ret].
  apply pure_reduceM. intros acc x. now apply pure_add_size.
Qed.

Lemma pure_getImageSrcset (image : option Entity) (imageClass : option string)
    (flag : option bool) :
  truthy (of_flag flag) = false ->
  pure_in (getImageSrcset image imageClass flag).
Proof.
  intros F. unfold getImageSrcset.
  destruct image as [e|]; [|apply pure_ret].
  destruct (unusable (Some e)); [apply pure_ret|].
  apply pure_bind; [now apply pure_getSrcSet | intros s; apply pure_ret].
Qed.

Lemma pure_getPictureSrcsets (image : option Entity)
    (imageClass : option string) (flag : option bool) :
  truthy (of_flag flag) = false ->
  pure_in (getPictureSrcsets image imageClass flag).
Proof.
  intros F. unfold getPictureSrcsets.
  destruct image as [e|]; [|apply pure_ret].
  destruct (unusable (Some e)); [apply pure_ret|].
  apply pure_bind; [|intros s; apply pure_ret].
  apply pure_mapM. intros type.
  apply pure_bind; [now apply pure_getSrcSet | intros s; apply pure_ret].
Qed.

End Purity.

(** X18: when the cache-busting flag is false or absent,
    [getPictureSrcsets] and [getImageSrcset] do not read the clock: the
    completion is the same whatever the clock shows, and the count of
    readings is left as it was. *)
Theorem X18_no_clock_without_refresh (image : option Entity)
    (imageClass : option string) (flag : option bool) (w1 w2 : World) :
  truthy (of_flag flag) = false ->
  (fst (getPictureSrcsets image imageClass flag w1)
   = fst (getPictureSrcsets image imageClass flag w2)
   /\ snd (getPictureSrcsets image imageClass flag w1) = w1)
  /\ (fst (getImageSrcset image imageClass flag w1)
      = fst (getImageSrcset image imageClass flag w2)
      /\ snd (getImageSrcset image imageClass flag w1) = w1).
Proof.
  intros F.
  destruct (pure_getPictureSrcsets image imageClass flag F) as [rp Hp].
  destruct (pure_getImageSrcset image imageClass flag F) as [ri Hi].
  rewrite !Hp, !Hi. repeat split.
Qed.

Lemma X18_no_clock_without_refresh_witness :
  fst (getImageSrcset (Some (entity_of ex_links)) (Some "tile") None clock0)
  = fst (getImageSrcset (Some (entity_of ex_links)) (Some "tile") None
           (mkWorld (fun _ => 0) 7)).
Proof.
  exact (proj1 (proj2
           (X18_no_clock_without_refresh (Some (entity_of ex_links))
              (Some "tile") None clock0 (mkWorld (fun _ => 0) 7) eq_refl))).
Defined.

(** ** Further properties of the classifier *)

Section ClassifierOrder.
Import Obj ObjFacts.

Lemma names_set {V} (o : t V) (k : string) (v : V) :
  names (set o k v)
  = if memb k (names o) then names o else (names o ++ [k])%list.
Proof.
  unfold names, memb. induction o as [|[k0 v0] r IH]; simpl; [reflexivity|].
  destruct (k0 =? k)%string; simpl; [reflexivity|].
  rewrite IH. destruct (existsb _ (map fst r)); reflexivity.
Qed.

Lemma filter_twice {A} (p q : A -> bool) (l : list A) :
  filter p (filter q l) = filter (fun y => (q y && p y)%bool) l.
Proof.
  induction l as [|x l IH]; simpl; [reflexivity|].
  destruct (q x); simpl; [|exact IH].
  destruct (p x); [now rewrite IH | exact IH].
Qed.

Lemma memb_app (k : string) (a b : list string) :
  memb k (a ++ b)%list = (memb k a || memb k b)%bool.
Proof. apply existsb_app. Qed.

Lemma fold_add_link_order (links : list Link) :
  forall m : LinksByType,
    names (fold_left add_link links m)
    = (names m ++ filter (fun t => negb (memb t (names m)))
                    (first_occurrences (map type_key links)))%list.
Proof.
  induction links as [|l r IH]; intros m; simpl.
  - now rewrite app_nil_r.
  - rewrite IH. unfold add_link at 1 2. rewrite names_set.
    destruct (memb (type_key l) (names m)) eqn:E; simpl.
    + f_equal. rewrite filter_twice. apply filter_ext. intros y.
      destruct (String.eqb_spec y (type_key l)) as [->|N]; simpl.
      * now rewrite E.
      * reflexivity.
    + rewrite <- app_assoc. simpl. do 2 f_equal.
      rewrite filter_twice. apply filter_ext. intros y.
      rewrite memb_app. unfold memb at 2. simpl. rewrite orb_false_r.
      rewrite (String.eqb_sym (type_key l) y), negb_orb. apply andb_comm.
Qed.

(** The classifier inserts the media types as they first occur. *)
Lemma names_classify (links : list Link) :
  names (classify links) = first_occurrences (map type_key links).
Proof.
  unfold classify. rewrite fold_add_link_order. simpl. apply filter_true.
Qed.

Lemma keys_classify (links : list Link) :
  keys (classify links) = order (first_occurrences (map type_key links)).
Proof. unfold keys. now rewrite names_classify. Qed.

Lemma first_occurrences_NoDup (l : list string) : NoDup (first_occurrences l).
Proof.
  induction l as [|x r IH]; simpl; constructor.
  - intros H. apply filter_In in H. destruct H as [_ H].
    now rewrite String.eqb_refl in H.
  - now apply NoDup_filter.
Qed.

Lemma first_occurrences_In (l : list string) (x : string) :
  In x (first_occurrences l) <-> In x l.
Proof.
  induction l as [|y r IH]; simpl; [tauto|].
  rewrite filter_In, IH.
  destruct (String.eqb_spec x y) as [->|N]; simpl.
  - intuition.
  - intuition congruence.
Qed.

Lemma insert_index_perm (x : N * string) (l : list (N * string)) :
  Permutation (insert_index x l) (x :: l).
Proof.
  induction l as [|y r IH]; simpl; [apply Permutation_refl|].
  destruct (fst x <=? fst y)%N; [apply Permutation_refl|].
  apply perm_trans with (y :: x :: r); [now apply perm_skip | apply perm_swap].
Qed.

Lemma sorted_indices_perm (l : list (N * string)) :
  Permutation (fold_right insert_index [] l) l.
Proof.
  induction l as [|x r IH]; simpl; [apply perm_nil|].
  apply perm_trans with (x :: fold_right insert_index [] r);
    [apply insert_index_perm | now apply perm_skip].
Qed.

Lemma index_names_filter (l : list string) :
  map snd (index_names l) = filter is_index l.
Proof.
  unfold index_names, is_index. induction l as [|k r IH]; simpl; [reflexivity|].
  destruct (array_index k); simpl; now rewrite IH.
Qed.

Lemma filter_split_perm {A} (p : A -> bool) (l : list A) :
  Permutation (filter p l ++ filter (fun x => negb (p x)) l)%list l.
Proof.
  induction l as [|x r IH]; simpl; [apply perm_nil|].
  destruct (p x); simpl.
  - now apply perm_skip.
  - apply Permutation_sym, Permutation_cons_app, Permutation_sym, IH.
Qed.

(** Listing the keys permutes them. *)
Lemma order_perm (l : list string) : Permutation (order l) l.
Proof.
  unfold order.
  apply perm_trans
    with (filter is_index l ++ filter (fun k => negb (is_index k)) l)%list;
    [|apply filter_split_perm].
  apply Permutation_app_tail. rewrite <- index_names_filter.
  apply Permutation_map, sorted_indices_perm.
Qed.

Lemma order_NoDup (l : list string) : NoDup l -> NoDup (order l).
Proof.
  intros H. apply (Permutation_NoDup (Permutation_sym (order_perm l)) H).
Qed.

Lemma classify_nonempty (l : Link) (r : list Link) :
  exists sizes rest, classify (l :: r) = (type_key l, sizes) :: rest.
Proof.
  assert (K := names_classify (l :: r)). simpl in K.
  destruct (classify (l :: r)) as [|[k v] rest]; [discriminate K|].
  simpl in K. injection K as -> _. eauto.
Qed.

Lemma plain_types_index (links : list Link) :
  (forall l, In l links -> is_index (type_key l) = false) ->
  forall type, In type (first_occurrences (map type_key links)) ->
               is_index type = false.
Proof.
  intros H type Hin. apply first_occurrences_In, in_map_iff in Hin.
  destruct Hin as (l & <- & Hl). now apply H.
Qed.

End ClassifierOrder.

(** X1: when no link has a type that names a member of
    [Object.prototype], the entry that [_getImageLinks] holds for a media
    type and a key (neither of them such a name) is the [href] of the last
    link, in the order of the collection, that has this type and is filed
    under this key; there is no entry when no link is. *)
Theorem X1_last_link_wins (image : Entity) (imageClass : option string)
    (type key : string) :
  plain_types (getLinksByClass image (class_or_tile imageClass)) ->
  proto_name type = false ->
  proto_name key = false ->
  lookup2 (_getImageLinks image imageClass) type key
  = option_map link_href
      (find (files_under type key)
            (rev (getLinksByClass image (class_or_tile imageClass)))).
Proof.
  intros _ _ _. unfold _getImageLinks, classify. rewrite fold_add_link_last.
  destruct (find _ _); reflexivity.
Qed.

Lemma X1_last_link_wins_witness :
  lookup2 (_getImageLinks (entity_of overwriting_links) (Some "tile"))
          "image/jpeg" "lowMin"
  = Some "new.jpg".
Proof.
  rewrite (X1_last_link_wins (entity_of overwriting_links) (Some "tile")
             "image/jpeg" "lowMin").
  - reflexivity.
  - repeat constructor.
  - reflexivity.
  - reflexivity.
Defined.

(** X2: when no link has a type that names a member of
    [Object.prototype], the media types of the result of [_getImageLinks]
    are the distinct types of the links, each once; the result holds them
    in the order in which they first occur in the collection, and
    [Object.keys] lists them in that order when no type is an array index,
    and in general with the array indices first. *)
Theorem X2_types_in_order_of_first_link (image : Entity)
    (imageClass : option string) :
  let links := getLinksByClass image (class_or_tile imageClass) in
  plain_types links ->
  Obj.names (_getImageLinks image imageClass)
    = first_occurrences (map type_key links)
  /\ Obj.keys (_getImageLinks image imageClass)
     = Obj.order (first_occurrences (map type_key links))
  /\ NoDup (Obj.keys (_getImageLinks image imageClass))
  /\ ((forall l, In l links -> is_index (type_key l) = false) ->
      Obj.keys (_getImageLinks image imageClass)
      = first_occurrences (map type_key links)).
Proof.
  intros links _. unfold _getImageLinks. fold links.
  rewrite keys_classify, names_classify.
  split; [reflexivity|]. split; [reflexivity|]. split.
  - apply order_NoDup, first_occurrences_NoDup.
  - intros H. apply ObjFacts.order_plain. now apply plain_types_index.
Qed.

Lemma X2_types_in_order_of_first_link_witness :
  Obj.keys (_getImageLinks (entity_of png_then_jpeg) (Some "tile"))
  = [ "image/png"; "image/jpeg" ].
Proof.
  destruct (X2_types_in_order_of_first_link (entity_of png_then_jpeg)
              (Some "tile")) as (_ & _ & _ & H).
  - repeat constructor.
  - rewrite H; [reflexivity|].
    simpl. intros l [<-|[<-|[]]]; reflexivity.
Defined.

(** ** Further properties of the srcset builder *)

Section BuilderExact.
Import Obj.

Lemma filter_nothing {A} (p : A -> bool) (l : list A) :
  (forall x, In x l -> p x = false) -> filter p l = [].
Proof.
  induction l as [|x l IH]; intros H; simpl; [reflexivity|].
  rewrite (H x (or_introl eq_refl)). apply IH. intros y Hy. apply H. now right.
Qed.

Lemma getSrcSet_nothing_present (sizes : SizeMap) (imageClass : option string)
    (flag : option bool) (w : World) :
  (forall key, In key _sizeNames -> present sizes key = false) ->
  _getSrcSet (Some sizes) imageClass flag w = (Normal "", w).
Proof.
  intros H. apply filter_nothing in H.
  destruct (truthy (of_flag flag)) eqn:F.
  - rewrite getSrcSet_stamped by exact F. rewrite H. simpl.
    now rewrite after_reads_none.
  - rewrite getSrcSet_plain by exact F.
    unfold plain_srcset. now rewrite H.
Qed.

Lemma getSrcSet_returns (sizes : SizeMap) (imageClass : option string)
    (flag : option bool) (w : World) :
  exists s w', _getSrcSet (Some sizes) imageClass flag w = (Normal s, w').
Proof.
  destruct (truthy (of_flag flag)) eqn:F.
  - rewrite getSrcSet_stamped by exact F. eauto.
  - rewrite getSrcSet_plain by exact F. eauto.
Qed.

Lemma breakpoints_fallback (imageClass : option string) :
  plain_class imageClass ->
  imageClass <> Some "tile" ->
  _getSrcsetBreakpoints imageClass = _getSrcsetBreakpoints (Some "narrow").
Proof.
  unfold plain_class. intros P N. destruct imageClass as [c|]; [|reflexivity].
  unfold _getSrcsetBreakpoints, _srcSetBreakpoints in *. cbv zeta.
  cbn [of_str to_string get] in *. rewrite P.
  destruct (String.eqb_spec "tile" c) as [<-|_]; [now elim N|].
  destruct ("narrow" =? c)%string; reflexivity.
Qed.

Lemma width_text_plain (imageClass : option string) (key : string) :
  plain_class imageClass -> In key _sizeNames ->
  width_text (_getSrcsetBreakpoints imageClass) key
  = Z_to_string (width_in (_getSrcsetBreakpoints imageClass) key).
Proof.
  intros P K. unfold width_text. now rewrite breakpoints_total.
Qed.

End BuilderExact.

(** X3: without cache-busting [_getSrcSet] reads no clock and returns, for
    the size names that hold a non-empty URL, in the order of
    [_sizeNames], the descriptors [url widthw] joined by [", "], each with
    the URL of the size map and the width that the breakpoint table of the
    image class gives the size name, which is a number unless the image
    class names a member of [Object.prototype]. *)
Theorem X3_srcset_without_refresh (sizes : SizeMap) (imageClass : option string)
    (forceImageRefresh : option bool) (w : World) :
  truthy (of_flag forceImageRefresh) = false ->
  let names := filter (present sizes) _sizeNames in
  let table := _getSrcsetBreakpoints imageClass in
  _getSrcSet (Some sizes) imageClass forceImageRefresh w
  = (Normal (String.concat ", "
               (map (fun key =>
                       href_at sizes key ++ " "
                         ++ to_string (of_num (Obj.get table key)) ++ "w")
                    names)), w)
  /\ (plain_class imageClass ->
      forall key, In key names ->
        of_num (Obj.get table key) = VNum (width_in table key)
        /\ 0 < width_in table key).
Proof.
  intros F names table. split.
  - now rewrite getSrcSet_plain by exact F.
  - intros P key K. apply filter_In in K. destruct K as [K _].
    unfold table. rewrite (breakpoints_total imageClass key P K).
    split; [reflexivity|].
    unfold width_in.
    destruct (breakpoints_plain imageClass P) as [-> | ->];
      simpl in K; repeat (destruct K as [<-|K]; [reflexivity|]); destruct K.
Qed.

Lemma X3_srcset_without_refresh_witness :
  _getSrcSet (Some crossing_sizes) (Some "narrow") (Some false) clock0
  = (Normal "a 767w, b 640w", clock0).
Proof.
  exact (proj1 (X3_srcset_without_refresh crossing_sizes (Some "narrow")
                  (Some false) clock0 eq_refl)).
Defined.

(** X4: with cache-busting [_getSrcSet] reads the clock once for each size
    name that holds a non-empty URL and for no other: the descriptors are
    stamped with successive readings, in the order of [_sizeNames], and the
    clock has been read as many times as there are descriptors. *)
Theorem X4_one_clock_reading_per_descriptor (sizes : SizeMap)
    (imageClass : option string) (forceImageRefresh : option bool) (w : World) :
  truthy (of_flag forceImageRefresh) = true ->
  let names := filter (present sizes) _sizeNames in
  _getSrcSet (Some sizes) imageClass forceImageRefresh w
  = (Normal (String.concat ", "
               (stamped_lines sizes (_getSrcsetBreakpoints imageClass)
                  w (reads w) names)),
     mkWorld (readings w) (List.length names + reads w)).
Proof. intros F names. now apply getSrcSet_stamped. Qed.

Lemma X4_one_clock_reading_per_descriptor_witness :
  _getSrcSet (Some crossing_sizes) (Some "tile") (Some true) clock0
  = (Normal "a?timestamp=1700000000000 540w, b?timestamp=1700000000001 290w",
     mkWorld (readings clock0) 2).
Proof.
  exact (X4_one_clock_reading_per_descriptor crossing_sizes (Some "tile")
           (Some true) clock0 eq_refl).
Defined.

(** X5: a size map in which none of the six size names holds a non-empty
    URL gives the empty string, whatever the flag, and the clock is not
    read. *)
Theorem X5_no_size_no_descriptor (sizes : SizeMap) (imageClass : option string)
    (forceImageRefresh : option bool) (w : World) :
  (forall key, In key _sizeNames -> present sizes key = false) ->
  _getSrcSet (Some sizes) imageClass forceImageRefresh w = (Normal "", w).
Proof. apply getSrcSet_nothing_present. Qed.

Lemma X5_no_size_no_descriptor_witness :
  _getSrcSet (Some [ ("lowfalse", "x.png"); ("lowMin", "") ]) (Some "tile")
    (Some true) clock0
  = (Normal "", clock0).
Proof.
  apply (X5_no_size_no_descriptor [ ("lowfalse", "x.png"); ("lowMin", "") ]
           (Some "tile") (Some true) clock0).
  intros key H. simpl in H.
  repeat (destruct H as [<-|H]; [reflexivity|]). destruct H.
Defined.

(** X6: every image class other than [tile] that names no member of
    [Object.prototype], also an absent one, is built with the [narrow]
    widths; an image class that names such a member gets no width for any
    size name. *)
Theorem X6_other_classes_use_narrow (sizes : option SizeMap)
    (imageClass : option string) (forceImageRefresh : option bool) (w : World) :
  (plain_class imageClass -> imageClass <> Some "tile" ->
   _getSrcsetBreakpoints imageClass = _getSrcsetBreakpoints (Some "narrow")
   /\ _getSrcSet sizes imageClass forceImageRefresh w
      = _getSrcSet sizes (Some "narrow") forceImageRefresh w)
  /\ (~ plain_class imageClass ->
      forall key, In key _sizeNames ->
        Obj.get (_getSrcsetBreakpoints imageClass) key = None).
Proof.
  split.
  - intros P N. assert (E := breakpoints_fallback imageClass P N).
    split; [exact E|]. unfold _getSrcSet. now rewrite E.
  - intros N key _. now rewrite breakpoints_member.
Qed.

Lemma X6_other_classes_use_narrow_witness :
  _getSrcSet (Some crossing_sizes) (Some "banner") None clock0
  = _getSrcSet (Some crossing_sizes) (Some "narrow") None clock0
  /\ Obj.get (_getSrcsetBreakpoints (Some "valueOf")) "lowMin" = None.
Proof.
  split.
  - apply (proj1 (X6_other_classes_use_narrow (Some crossing_sizes)
                    (Some "banner") None clock0)).
    + reflexivity.
    + discriminate.
  - apply (proj2 (X6_other_classes_use_narrow None (Some "valueOf") None
                    clock0)).
    + discriminate.
    + simpl. auto.
Defined.

(** X7: when the image class is left out or empty, the entry points take
    the links of the class [tile] but the widths of [narrow]. *)
Theorem X7_default_class_mixes_tile_and_narrow (image : Entity)
    (imageClass : option string) (forceImageRefresh : option bool) (w : World) :
  truthy (of_str imageClass) = false ->
  getImageSrcset (Some image) imageClass forceImageRefresh w
  = getImageSrcset (Some (tile_links_only image)) (Some "narrow")
      forceImageRefresh w
  /\ getPictureSrcsets (Some image) imageClass forceImageRefresh w
     = getPictureSrcsets (Some (tile_links_only image)) (Some "narrow")
         forceImageRefresh w
  /\ getDefaultImageLink (Some image) imageClass
     = getDefaultImageLink (Some image) (Some "tile").
Proof.
  intros T.
  assert (C : class_or_tile imageClass = "tile").
  { unfold class_or_tile, js_or. now rewrite T. }
  assert (B : _getSrcsetBreakpoints imageClass
              = _getSrcsetBreakpoints (Some "narrow")).
  { apply breakpoints_fallback.
    - destruct imageClass as [c|]; [|reflexivity].
      destruct c; [reflexivity | discriminate T].
    - intros ->. discriminate T. }
  unfold getImageSrcset, getPictureSrcsets, getDefaultImageLink,
    _getBestImageLinks, _getImageLinks, _getSrcSet.
  rewrite C, B. repeat split.
Qed.

Lemma X7_default_class_mixes_tile_and_narrow_witness :
  fst (getImageSrcset (Some (entity_of ex_links)) None None clock0)
  = Normal (Some "a.jpg 320w, b.jpg 640w").
Proof.
  rewrite (proj1 (X7_default_class_mixes_tile_and_narrow (entity_of ex_links)
                    None None clock0 eq_refl)).
  reflexivity.
Defined.

(** ** Further properties of the entry points *)

Section EntryPointsExact.
Import Obj ObjFacts.

Lemma mapM_returns {A B} (f : A -> M B) (P : A -> B -> Prop) (l : list A) :
  (forall x w, In x l -> exists y w', f x w = (Normal y, w') /\ P x y) ->
  forall w, exists ys w', mapM f l w = (Normal ys, w') /\ Forall2 P l ys.
Proof.
  induction l as [|x r IH]; intros Hf w; simpl.
  - exists [], w. split; [reflexivity | constructor].
  - destruct (Hf x w (or_introl eq_refl)) as (y & w1 & Hy & Py).
    destruct (IH (fun x' w' H => Hf x' w' (or_intror H)) w1)
      as (ys & w2 & Hys & Pys).
    exists (y :: ys), w2. unfold bind. rewrite Hy, Hys.
    split; [reflexivity | now constructor].
Qed.

Lemma mapM_pure {A B} (f : A -> M B) (g : A -> B) (l : list A) :
  (forall x, In x l -> forall w, f x w = (Normal (g x), w)) ->
  forall w, mapM f l w = (Normal (map g l), w).
Proof.
  induction l as [|x r IH]; intros Hf w; simpl; [reflexivity|].
  unfold bind. rewrite (Hf x (or_introl eq_refl)).
  rewrite IH by (intros x' H; apply Hf; now right). reflexivity.
Qed.

Lemma src_types {l : list string} {ys : list Source} :
  Forall2 (fun type s => src_type s = type) l ys -> map src_type ys = l.
Proof. induction 1 as [|x y l ys E _ IH]; simpl; [reflexivity|]. now rewrite E, IH. Qed.

Lemma getPictureSrcsets_returns (e : Entity) (imageClass : option string)
    (flag : option bool) (w : World) :
  unusable (Some e) = false ->
  exists sources w',
    getPictureSrcsets (Some e) imageClass flag w = (Normal (Some sources), w')
    /\ map src_type sources = keys (_getImageLinks e imageClass).
Proof.
  intros U. unfold getPictureSrcsets. rewrite U.
  set (m := _getImageLinks e imageClass).
  destruct (mapM_returns
              (fun type => srcset <- _getSrcSet (get m type) imageClass flag ;;
                           ret (mkSource type srcset))
              (fun type s => src_type s = type) (keys m)) with (w := w)
    as (ys & w' & E & P).
  - intros type w0 H. apply get_in_keys in H.
    destruct (get m type) as [s|]; [|now elim H].
    destruct (getSrcSet_returns s imageClass flag w0) as (str & w1 & Hs).
    exists (mkSource type str), w1. unfold bind. rewrite Hs.
    split; reflexivity.
  - exists ys, w'. unfold bind in E |- *. rewrite E.
    split; [reflexivity | now apply src_types].
Qed.

Lemma getPictureSrcsets_plain (e : Entity) (imageClass : option string)
    (flag : option bool) (w : World) :
  unusable (Some e) = false ->
  truthy (of_flag flag) = false ->
  getPictureSrcsets (Some e) imageClass flag w
  = (Normal (Some (map (fun type =>
                          mkSource type
                            (match get (_getImageLinks e imageClass) type with
                             | Some s => plain_srcset s imageClass
                             | None => ""
                             end))
                       (keys (_getImageLinks e imageClass)))), w).
Proof.
  intros U F. unfold getPictureSrcsets. rewrite U.
  set (m := _getImageLinks e imageClass).
  unfold bind.
  rewrite (mapM_pure _
             (fun type =>
                mkSource type
                  (match get m type with
                   | Some s => plain_srcset s imageClass
                   | None => ""
                   end))); [reflexivity|].
  intros type H w0. apply get_in_keys in H.
  destruct (get m type) as [s|]; [|now elim H].
  unfold bind. now rewrite getSrcSet_plain by exact F.
Qed.

Lemma best_of_some (m : LinksByType) (sizes : SizeMap) :
  best_of m = Some sizes -> exists type, get m type = Some sizes.
Proof.
  unfold best_of. destruct (get m "image/jpeg") as [s|] eqn:J.
  - intros [= <-]. eauto.
  - destruct (keys m) as [|k rest]; [discriminate | eauto].
Qed.

Lemma best_of_nonempty (m : LinksByType) :
  m <> [] -> exists sizes, best_of m = Some sizes.
Proof.
  intros N. unfold best_of. destruct (get m "image/jpeg") as [s|]; [eauto|].
  destruct (keys m) as [|k rest] eqn:E.
  - apply order_nil in E. destruct m; [now elim N | discriminate E].
  - assert (K : In k (keys m)) by (rewrite E; now left).
    apply get_in_keys in K.
    destruct (get m k) as [s|]; [eauto | now elim K].
Qed.

Lemma classify_nil (links : list Link) : classify links = [] -> links = [].
Proof.
  destruct links as [|l r]; [reflexivity|].
  destruct (classify_nonempty l r) as (s & rest & ->). discriminate.
Qed.

Lemma find_source (g : string -> string) (types : list string) (k : string) :
  find (fun s => (src_type s =? k)%string)
       (map (fun type => mkSource type (g type)) types)
  = if memb k types then Some (mkSource k (g k)) else None.
Proof.
  unfold memb. induction types as [|k0 r IH]; simpl; [reflexivity|].
  destruct (String.eqb_spec k0 k) as [->|N]; [reflexivity | exact IH].
Qed.

Lemma memb_keys {V} (o : t V) (k : string) :
  memb k (keys o) = match get o k with Some _ => true | None => false end.
Proof.
  destruct (memb k (keys o)) eqn:E.
  - unfold memb in E. apply existsb_exists in E. destruct E as (k' & Hin & E).
    apply String.eqb_eq in E. subst k'. apply get_in_keys in Hin.
    destruct (get o k); [reflexivity | now elim Hin].
  - destruct (get o k) eqn:G; [|reflexivity].
    assert (Hin : In k (keys o)) by (apply get_in_keys; rewrite G; discriminate).
    assert (T : memb k (keys o) = true).
    { unfold memb. apply existsb_exists. exists k. split; [exact Hin|].
      apply String.eqb_refl. }
    rewrite T in E. discriminate E.
Qed.

Lemma preference_size_names (key : string) :
  In key preference <-> In key _sizeNames.
Proof. unfold preference, _sizeNames. simpl. tauto. Qed.

(** Without a link that has a size-tier class no size map holds a size
    name. *)
Lemma unsized_links_absent (links : list Link) (type : string)
    (sizes : SizeMap) (key : string) :
  (forall l, In l links -> classifiable l = false) ->
  get (classify links) type = Some sizes ->
  In key _sizeNames -> get sizes key = None.
Proof.
  intros H G K.
  assert (L := fold_add_link_sized links empty empty
                 (fun _ _ _ => eq_refl) type key K).
  rewrite (filter_nothing classifiable links H) in L. simpl in L.
  unfold classify in G. unfold lookup2 in L at 1. now rewrite G in L.
Qed.

Lemma unsized_links_no_size (links : list Link) (type : string)
    (sizes : SizeMap) (key : string) :
  (forall l, In l links -> classifiable l = false) ->
  get (classify links) type = Some sizes ->
  In key _sizeNames -> present sizes key = false.
Proof.
  intros H G K. apply absent_not_present.
  now apply (unsized_links_absent links type sizes key).
Qed.

Lemma has_char_split (c : ascii) (s : string) :
  has_char c s = true ->
  exists base rest, s = base ++ String c rest /\ has_char c base = false.
Proof.
  induction s as [|a s IH]; simpl; [discriminate|].
  destruct (Ascii.eqb_spec a c) as [->|N]; simpl.
  - intros _. exists "", s. split; reflexivity.
  - intros H. destruct (IH H) as (base & rest & -> & Hb).
    exists (String a base), rest. split; [reflexivity|].
    simpl. apply Ascii.eqb_neq in N. now rewrite N.
Qed.

End EntryPointsExact.

(** X8: [getPictureSrcsets] returns [undefined] when the image is absent
    or has a non-empty [href].  On any other image whose links have no
    type that names a member of [Object.prototype] it does not throw and
    returns one source for each distinct media type of the links, in the
    order in which [Object.keys] lists them: the order in which the types
    first occur when no type is an array index. *)
Theorem X8_picture_sources_by_type (image : option Entity)
    (imageClass : option string) (forceImageRefresh : option bool) (w : World) :
  (unusable image = true ->
   getPictureSrcsets image imageClass forceImageRefresh w = (Normal None, w))
  /\ (forall e,
        image = Some e -> unusable image = false ->
        let links := getLinksByClass e (class_or_tile imageClass) in
        plain_types links ->
        exists sources w',
          getPictureSrcsets image imageClass forceImageRefresh w
            = (Normal (Some sources), w')
          /\ map src_type sources
             = Obj.order (first_occurrences (map type_key links))
          /\ ((forall l, In l links -> is_index (type_key l) = false) ->
              map src_type sources
              = first_occurrences (map type_key links))).
Proof.
  split.
  - intros U. now apply (unusable_image image imageClass forceImageRefresh w).
  - intros e -> U links _.
    destruct (getPictureSrcsets_returns e imageClass forceImageRefresh w U)
      as (sources & w' & E & T).
    exists sources, w'. split; [exact E|].
    unfold _getImageLinks in T. fold links in T. rewrite keys_classify in T.
    split; [exact T|].
    intros H. rewrite T. apply ObjFacts.order_plain.
    now apply plain_types_index.
Qed.

Lemma X8_picture_sources_by_type_witness :
  exists sources w',
    getPictureSrcsets (Some (entity_of png_then_jpeg)) (Some "tile")
      (Some true) clock0
    = (Normal (Some sources), w')
    /\ map src_type sources = [ "image/png"; "image/jpeg" ].
Proof.
  destruct (proj2 (X8_picture_sources_by_type (Some (entity_of png_then_jpeg))
                     (Some "tile") (Some true) clock0)
              (entity_of png_then_jpeg) eq_refl eq_refl)
    as (sources & w' & E & _ & T).
  - repeat constructor.
  - exists sources, w'. split; [exact E|]. rewrite T; [reflexivity|].
    simpl. intros l [<-|[<-|[]]]; reflexivity.
Defined.

(** X9: without cache-busting, on a hydrated image whose links have no
    type that names a member of [Object.prototype], [getPictureSrcsets]
    reads no clock and returns, for each media type of [_getImageLinks] in
    the order of [Object.keys], the media type with the srcset of its size
    map. *)
Theorem X9_picture_sources_without_refresh (image : Entity)
    (imageClass : option string) (forceImageRefresh : option bool) (w : World) :
  unusable (Some image) = false ->
  truthy (of_flag forceImageRefresh) = false ->
  plain_types (getLinksByClass image (class_or_tile imageClass)) ->
  exists sources,
    getPictureSrcsets (Some image) imageClass forceImageRefresh w
      = (Normal (Some sources), w)
    /\ Forall2 (fun type s =>
                  src_type s = type
                  /\ exists sizes,
                       Obj.get (_getImageLinks image imageClass) type
                         = Some sizes
                       /\ srcset s = plain_srcset sizes imageClass)
               (Obj.keys (_getImageLinks image imageClass)) sources.
Proof.
  intros U F _. rewrite getPictureSrcsets_plain by assumption.
  eexists. split; [reflexivity|].
  set (m := _getImageLinks image imageClass).
  assert (H : forall type, In type (Obj.keys m) -> Obj.get m type <> None)
    by (intros type; apply ObjFacts.get_in_keys).
  induction (Obj.keys m) as [|type r IH]; simpl; constructor.
  - split; [reflexivity|]. simpl.
    destruct (Obj.get m type) as [sizes|] eqn:G.
    + exists sizes. auto.
    + now elim (H type (or_introl eq_refl)).
  - apply IH. intros t Ht. apply H. now right.
Qed.

Lemma X9_picture_sources_without_refresh_witness :
  exists sources,
    getPictureSrcsets (Some (entity_of png_then_jpeg)) (Some "tile") None clock0
      = (Normal (Some sources), clock0)
    /\ Forall2 (fun type s =>
                  src_type s = type
                  /\ exists sizes,
                       Obj.get (_getImageLinks (entity_of png_then_jpeg)
                                  (Some "tile")) type = Some sizes
                       /\ srcset s = plain_srcset sizes (Some "tile"))
               (Obj.keys (_getImageLinks (entity_of png_then_jpeg)
                            (Some "tile"))) sources.
Proof.
  apply (X9_picture_sources_without_refresh (entity_of png_then_jpeg)
           (Some "tile") None clock0 eq_refl eq_refl).
  repeat constructor.
Defined.

(** X10: [getImageSrcset] throws exactly when the image is a hydrated
    entity that has no link of the image class; in every other case it
    returns. *)
Theorem X10_image_srcset_throws_iff (image : option Entity)
    (imageClass : option string) (forceImageRefresh : option bool) (w : World) :
  fst (getImageSrcset image imageClass forceImageRefresh w) = Throw TypeError
  <-> exists e, image = Some e /\ unusable image = false
                /\ getLinksByClass e (class_or_tile imageClass) = [].
Proof.
  split.
  - intros T. destruct (unusable image) eqn:U.
    + destruct (unusable_image image imageClass forceImageRefresh w U)
        as (_ & E & _).
      rewrite E in T. discriminate T.
    + destruct image as [e|]; [|discriminate U].
      exists e. repeat split.
      destruct (getLinksByClass e (class_or_tile imageClass)) as [|l r] eqn:L;
        [reflexivity|].
      exfalso. unfold getImageSrcset in T. rewrite U in T.
      destruct (best_of_nonempty (_getImageLinks e imageClass)) as [s B].
      { unfold _getImageLinks. rewrite L. intros C.
        apply classify_nil in C. discriminate C. }
      unfold _getBestImageLinks in T. rewrite B in T. unfold bind in T.
      destruct (getSrcSet_returns s imageClass forceImageRefresh w)
        as (str & w' & E).
      rewrite E in T. discriminate T.
  - intros (e & -> & U & L).
    now rewrite (getImageSrcset_no_links e imageClass forceImageRefresh w U L).
Qed.

Lemma X10_image_srcset_throws_iff_witness :
  fst (getImageSrcset (Some bare_image) None (Some true) clock0)
  = Throw TypeError.
Proof.
  apply (proj2 (X10_image_srcset_throws_iff (Some bare_image) None (Some true)
                  clock0)).
  exists bare_image. repeat split.
Defined.

(** X11: without cache-busting, on a hydrated image whose links have no
    type that names a member of [Object.prototype], [getImageSrcset]
    returns the srcset of the [image/jpeg] source of [getPictureSrcsets]
    when there is one, else the srcset of the first source, and throws
    when there is no source. *)
Theorem X11_image_srcset_is_a_picture_source (image : Entity)
    (imageClass : option string) (forceImageRefresh : option bool) (w : World)
    (sources : list Source) :
  unusable (Some image) = false ->
  truthy (of_flag forceImageRefresh) = false ->
  plain_types (getLinksByClass image (class_or_tile imageClass)) ->
  fst (getPictureSrcsets (Some image) imageClass forceImageRefresh w)
    = Normal (Some sources) ->
  fst (getImageSrcset (Some image) imageClass forceImageRefresh w)
  = match find (fun s => (src_type s =? "image/jpeg")%string) sources with
    | Some s => Normal (Some (srcset s))
    | None =>
        match sources with
        | s :: _ => Normal (Some (srcset s))
        | [] => Throw TypeError
        end
    end.
Proof.
  intros U F _ P. rewrite getPictureSrcsets_plain in P by assumption.
  simpl in P. injection P as <-.
  set (m := _getImageLinks image imageClass).
  rewrite (find_source
             (fun type => match Obj.get m type with
                          | Some s => plain_srcset s imageClass
                          | None => ""
                          end)).
  rewrite memb_keys.
  unfold getImageSrcset, _getBestImageLinks, best_of. rewrite U. fold m.
  destruct (Obj.get m "image/jpeg") as [s|].
  - unfold bind. rewrite getSrcSet_plain by exact F. reflexivity.
  - destruct (Obj.keys m) as [|k rest] eqn:E; [reflexivity|].
    assert (K : In k (Obj.keys m)) by (rewrite E; now left).
    apply ObjFacts.get_in_keys in K. simpl.
    destruct (Obj.get m k) as [s|]; [|now elim K].
    unfold bind. rewrite getSrcSet_plain by exact F. reflexivity.
Qed.

Lemma X11_image_srcset_is_a_picture_source_witness :
  fst (getImageSrcset (Some (entity_of png_then_jpeg)) (Some "tile") None clock0)
  = Normal (Some "a.jpg 145w").
Proof.
  refine (X11_image_srcset_is_a_picture_source (entity_of png_then_jpeg)
            (Some "tile") None clock0
            [ mkSource "image/png" "a.png 145w";
              mkSource "image/jpeg" "a.jpg 145w" ]
            eq_refl eq_refl _ eq_refl).
  repeat constructor.
Defined.

(** X12: [getDefaultImageLink] returns [undefined] or the [href] of one of
    the links of the image class, and then of a link that has a size-tier
    class. *)
Theorem X12_default_link_is_a_sized_link (image : option Entity)
    (imageClass : option string) :
  getDefaultImageLink image imageClass = VUndef
  \/ exists e l,
       image = Some e
       /\ In l (getLinksByClass e (class_or_tile imageClass))
       /\ classifiable l = true
       /\ getDefaultImageLink image imageClass = VStr (link_href l).
Proof.
  unfold getDefaultImageLink. destruct image as [e|]; [|now left].
  destruct (unusable (Some e)); [now left|].
  unfold _getBestImageLinks.
  destruct (best_of (_getImageLinks e imageClass)) as [sizes|] eqn:B;
    [|now left].
  destruct (best_of_some _ _ B) as [type G].
  rewrite pick_default_find.
  assert (K : exists key, In key _sizeNames
                /\ match find (present sizes) preference with
                   | Some k => of_str (Obj.get sizes k)
                   | None => of_str (Obj.get sizes "lowMin")
                   end = of_str (Obj.get sizes key)).
  { destruct (find (present sizes) preference) as [k|] eqn:Fd.
    - exists k. split; [|reflexivity].
      apply preference_size_names. now apply (find_some _ _ Fd).
    - exists "lowMin". split; [simpl; tauto | reflexivity]. }
  destruct K as (key & Kin & ->).
  assert (L := fold_add_link_last
                 (getLinksByClass e (class_or_tile imageClass))
                 Obj.empty type key).
  change (fold_left add_link (getLinksByClass e (class_or_tile imageClass))
            Obj.empty) with (_getImageLinks e imageClass) in L.
  unfold lookup2 in L at 1. rewrite G in L. rewrite L.
  destruct (find (files_under type key)
              (rev (getLinksByClass e (class_or_tile imageClass))))
    as [l|] eqn:Fl; [|now left].
  right. exists e, l. apply find_some in Fl. destruct Fl as [Hin Hf].
  split; [reflexivity|]. split; [now apply in_rev|]. split; [|reflexivity].
  unfold files_under in Hf. apply andb_true_iff in Hf. destruct Hf as [_ Hk].
  apply String.eqb_eq in Hk.
  destruct (classifiable l) eqn:C; [reflexivity|].
  exfalso. apply (unsized_not_size_name key); [|exact Kin].
  rewrite <- Hk. now apply link_key_unsized.
Qed.

(** X13: the separator before the timestamp is [&] exactly when the first
    question mark of the URL is followed by a character that is not a
    question mark; in every other case it is [?]. *)
Theorem X13_separator (url : string) :
  (separator url = "&" \/ separator url = "?")
  /\ (separator url = "&"
      <-> exists base a rest,
            url = base ++ String "?" (String a rest)
            /\ has_char "?" base = false /\ a <> "?"%char).
Proof.
  split.
  - unfold separator. destruct (truthy _); auto.
  - split.
    + intros S. destruct (has_char "?" url) eqn:H.
      * destruct (has_char_split _ _ H) as (base & rest & -> & Hb).
        destruct rest as [|a rest].
        -- rewrite (proj1 (separator_empty_first_field base "" Hb)) in S.
           discriminate S.
        -- destruct (Ascii.eqb_spec a "?") as [->|N].
           ++ rewrite (proj2 (separator_empty_first_field base rest Hb)) in S.
              discriminate S.
           ++ exists base, a, rest. auto.
      * rewrite (separator_without_query url H) in S. discriminate S.
    + intros (base & a & rest & -> & Hb & N).
      now apply separator_with_query.
Qed.

Lemma X13_separator_witness :
  separator "a.jpg?x=1" = "&".
Proof.
  apply (proj2 (proj2 (X13_separator "a.jpg?x=1"))).
  exists "a.jpg", "x"%char, "=1". repeat split. discriminate.
Defined.

(** X14: on a non-empty link collection without a type that names a
    member of [Object.prototype], [_getBestImageLinks] returns a size map:
    the one of [image/jpeg] when some link has this type; else the one of
    the type of the first link when no type is an array index, and the one
    of the smallest array index among the types when there is one. *)
Theorem X14_best_type_of_links (image : Entity) (imageClass : option string)
    (l : Link) (r : list Link) :
  getLinksByClass image (class_or_tile imageClass) = l :: r ->
  plain_types (l :: r) ->
  let jpeg := existsb (fun l' => (type_key l' =? "image/jpeg")%string) (l :: r) in
  let byType := _getImageLinks image imageClass in
  exists sizes,
    _getBestImageLinks image imageClass = Some sizes
    /\ (jpeg = true -> Obj.get byType "image/jpeg" = Some sizes)
    /\ (jpeg = false ->
        (forall l', In l' (l :: r) -> is_index (type_key l') = false) ->
        Obj.get byType (type_key l) = Some sizes)
    /\ (jpeg = false ->
        (exists l', In l' (l :: r) /\ is_index (type_key l') = true) ->
        exists l' n,
          In l' (l :: r) /\ array_index (type_key l') = Some n
          /\ Obj.get byType (type_key l') = Some sizes
          /\ forall l'' n', In l'' (l :: r) ->
                array_index (type_key l'') = Some n' -> (n <= n')%N).
Proof.
  intros L _ jpeg byType.
  assert (N : Obj.names byType = first_occurrences (map type_key (l :: r))).
  { unfold byType, _getImageLinks. rewrite L. apply names_classify. }
  assert (T : forall type, In type (Obj.names byType) <->
                           exists l', In l' (l :: r) /\ type_key l' = type).
  { intros type. rewrite N, first_occurrences_In, in_map_iff.
    split; intros (l' & A & B); exists l'; auto. }
  assert (J : jpeg = true <-> Obj.get byType "image/jpeg" <> None).
  { rewrite ObjFacts.get_in_names, T. unfold jpeg. rewrite existsb_exists.
    split; intros (l' & A & B); exists l'; split; auto;
      now apply String.eqb_eq. }
  destruct (best_of_nonempty byType) as [sizes B].
  { intros C. rewrite C in N. discriminate N. }
  exists sizes. split; [exact B|].
  unfold best_of in B.
  destruct (Obj.get byType "image/jpeg") as [s|] eqn:G.
  - assert (Jt : jpeg = true) by (apply J; discriminate).
    rewrite Jt. split; [intros _; exact B|].
    split; intros C; discriminate C.
  - assert (Jf : jpeg = false).
    { destruct jpeg; [|reflexivity]. now elim (proj1 J eq_refl). }
    rewrite Jf. split; [intros C; discriminate C|].
    assert (B' : best_of byType = Some sizes)
      by (unfold best_of; now rewrite G).
    split.
    + intros _ P. rewrite best_of_first in B'; [|exact G|].
      * rewrite <- B'. apply get_head. rewrite N. reflexivity.
      * intros type Hin. apply T in Hin. destruct Hin as (l' & A & <-).
        now apply P.
    + intros _ (l0 & A0 & I0).
      destruct (best_of_smallest_index byType G) as (type & n & s' & A & Gs & Bs & M).
      { exists (type_key l0). split; [|exact I0]. apply T. eauto. }
      rewrite B' in Bs. injection Bs as <-.
      assert (Hin : In type (Obj.names byType)).
      { apply ObjFacts.get_in_names. rewrite Gs. discriminate. }
      apply T in Hin. destruct Hin as (l' & Al & <-).
      exists l', n. repeat split; auto.
      intros l'' n' Al' A'. apply (M (type_key l'')); [|exact A'].
      apply T. eauto.
Qed.

Lemma X14_best_type_of_links_witness :
  _getBestImageLinks (entity_of png_then_jpeg) (Some "tile")
  = Some [ ("lowMin", "a.jpg") ].
Proof.
  destruct (X14_best_type_of_links (entity_of png_then_jpeg) (Some "tile")
              (link_of "a.png" "image/png" ["tile"; "min"])
              [ link_of "a.jpg" "image/jpeg" ["tile"; "min"] ] eq_refl)
    as (sizes & B & G & _).
  - repeat constructor.
  - rewrite B. rewrite <- G; reflexivity.
Defined.

(** X15: when the hydrated image has links of the image class, none with
    a type that names a member of [Object.prototype] and none with a
    size-tier class, [getImageSrcset] returns the empty string,
    [getDefaultImageLink] returns [undefined], and [getPictureSrcsets]
    returns a source with an empty srcset for each media type, in the
    order in which [Object.keys] lists the types; no clock is read,
    whatever the flag. *)
Theorem X15_links_without_size_tier (image : Entity)
    (imageClass : option string) (forceImageRefresh : option bool) (w : World) :
  let links := getLinksByClass image (class_or_tile imageClass) in
  unusable (Some image) = false ->
  links <> [] ->
  plain_types links ->
  (forall l, In l links -> classifiable l = false) ->
  getImageSrcset (Some image) imageClass forceImageRefresh w
    = (Normal (Some ""), w)
  /\ getDefaultImageLink (Some image) imageClass = VUndef
  /\ getPictureSrcsets (Some image) imageClass forceImageRefresh w
     = (Normal (Some (map (fun type => mkSource type "")
                          (Obj.order
                             (first_occurrences (map type_key links))))), w).
Proof.
  intros links U N _ H.
  assert (S : forall type sizes key,
             Obj.get (_getImageLinks image imageClass) type = Some sizes ->
             In key _sizeNames -> present sizes key = false).
  { intros type sizes key G K.
    exact (unsized_links_no_size links type sizes key H G K). }
  destruct (best_of_nonempty (_getImageLinks image imageClass)) as [sizes B].
  { unfold _getImageLinks. intros C. apply classify_nil in C. now apply N. }
  destruct (best_of_some _ _ B) as [type G].
  split; [|split].
  - unfold getImageSrcset, _getBestImageLinks. rewrite U, B. unfold bind.
    rewrite getSrcSet_nothing_present by (intros key K; exact (S _ _ _ G K)).
    reflexivity.
  - unfold getDefaultImageLink, _getBestImageLinks. rewrite U, B.
    rewrite pick_default_find, find_none.
    + now rewrite (unsized_links_absent links type sizes "lowMin" H G
                     (or_introl eq_refl)).
    + intros key K. apply (S _ _ _ G). now apply preference_size_names.
  - unfold getPictureSrcsets. rewrite U. unfold bind.
    rewrite (mapM_pure _ (fun type => mkSource type "")).
    + unfold _getImageLinks. fold links. now rewrite keys_classify.
    + intros t Hin w0. apply ObjFacts.get_in_keys in Hin.
      destruct (Obj.get (_getImageLinks image imageClass) t) as [s|] eqn:Gt;
        [|now elim Hin].
      unfold bind.
      rewrite getSrcSet_nothing_present by (intros key K; exact (S _ _ _ Gt K)).
      reflexivity.
Qed.

Lemma X15_links_without_size_tier_witness :
  getImageSrcset (Some unsized_image) (Some "tile") (Some true) clock0
  = (Normal (Some ""), clock0).
Proof.
  refine (proj1 (X15_links_without_size_tier unsized_image (Some "tile")
                   (Some true) clock0 eq_refl _ _ _)).
  - discriminate.
  - repeat constructor.
  - simpl. intros l [<-|[]]. reflexivity.
Defined.

(** X16: for every image class that names no member of
    [Object.prototype], the breakpoint table in use gives each
    high-density size twice the width of the low-density size of the same
    tier. *)
Theorem X16_high_density_doubles (imageClass : option string) :
  plain_class imageClass ->
  let table := _getSrcsetBreakpoints imageClass in
  Obj.get table "highMin" = option_map (Z.mul 2) (Obj.get table "lowMin")
  /\ Obj.get table "highMid" = option_map (Z.mul 2) (Obj.get table "lowMid")
  /\ Obj.get table "highMax" = option_map (Z.mul 2) (Obj.get table "lowMax")
  /\ Obj.get table "lowMin" <> None
  /\ Obj.get table "lowMid" <> None
  /\ Obj.get table "lowMax" <> None.
Proof.
  intros P table. subst table.
  destruct (breakpoints_plain imageClass P) as [-> | ->];
    repeat split; discriminate.
Qed.

Lemma X16_high_density_doubles_witness :
  Obj.get (_getSrcsetBreakpoints (Some "banner")) "highMax" = Some 1534.
Proof.
  rewrite (proj1 (proj2 (proj2 (X16_high_density_doubles (Some "banner")
                                  eq_refl)))).
  reflexivity.
Defined.


